(** * CLAWS: the state-machine worker, the metrics collector and the
      orchestration loop of [claws/__main__.py]

    The program drives a population of [StateMachine] workers over a shared,
    declarative state graph. Each worker issues the HTTP requests of its
    current state, records one metric per request and follows the first
    transition whose condition accepts the response status.

    The embedding is shallow. Python objects that are shared by reference
    (the configuration dictionary, the collector) live in an explicit
    [World]; the attributes of one [StateMachine] object live in a record;
    the coroutine [run] is a small-step machine whose control points are the
    loop heads of the source and its single suspension point, the HTTP call.
    The HTTP session and the delivery of SIGINT are the environment, given
    as oracles indexed by a logical clock. [step] describes the calls that
    give a response or raise [aiohttp.ClientError]; [step_exn] adds the
    exceptions that [execute_task] does not catch. *)

From stdpp Require Import base option list strings gmap fin_maps.
From Stdlib Require Import ZArith NArith Lia.
From Stdlib Require Ascii.

Open Scope string_scope.
Open Scope list_scope.
Open Scope nat_scope.

(** ** The state graph (the [config] dictionary) *)

(** A credential, and the [data] dictionary of a request, map field names
    to values. *)
Abbreviation Credential := (gmap string string).
Abbreviation Body := (gmap string string).

(** [task["params"]]: the keyword arguments handed to the session method.
    Only the key ["data"] is inspected by the engine; the remaining keys are
    passed through. *)
Record Params := mkParams {
  data : option Body;
  kwargs : gmap string string
}.

Record Task := mkTask {
  name : string;
  method : string;
  url : string;
  params : option Params
}.

(** A transition dictionary. The key ["terminate"] is optional and read with
    [transition.get("terminate", False)]. *)
Record Transition := mkTransition {
  condition : option Z -> bool;
  next_state : string;
  terminate : option bool
}.

Record StateDef := mkStateDef {
  tasks : list Task;
  transitions : list Transition
}.

(** The key ["initial_state"] is optional and read with
    [config.get("initial_state", "INITIAL")]. *)
Record Config := mkConfig {
  initial_state : option string;
  states : gmap string StateDef
}.

(** ** Metric records and the collector *)

Module Metric.
Record t := mk {
  state : string;
  task : string;
  status : option Z;
  response_time : N;
  error : option string
}.
End Metric.

Module MetricsCollector.
Record t := mk {
  running : bool;
  metrics : list Metric.t
}.

Definition init : t := {| running := true; metrics := [] |}.

Definition stop (c : t) : t :=
  {| running := false; metrics := metrics c |}.

Definition add_metrics (new_metrics : list Metric.t) (c : t) : t :=
  {| running := running c; metrics := metrics c ++ new_metrics |}.
End MetricsCollector.

(** ** The environment: HTTP session and shutdown signal *)

(** What reaches the session: the attribute looked up on it (the lower-cased
    method name), the URL and the keyword arguments. *)
Record Request := mkRequest {
  verb : string;
  req_url : string;
  req_params : Params
}.

(** The two ways the [async with method(...)] block is left in
    [execute_task] that end in a record: with a response, or with an
    [aiohttp.ClientError]. An exception of another class is not caught by
    [execute_task] (line 36) and leaves no record: those calls are
    described by [Uncaught] and [step_exn] below. *)
Inductive Outcome :=
  | Response (status : Z)
  | ClientError (msg : string).

(** [elapsed] is the difference of the two [time.monotonic()] readings, in
    ticks of the monotonic clock. *)
Record Reply := mkReply {
  outcome : Outcome;
  elapsed : N
}.

(** [session n req] is the reply to the request [req] when it is the event
    number [n] of the run; [sigint n] tells whether SIGINT has been delivered
    when the [running] flag is read at event number [n]. *)
Record Env := mkEnv {
  session : nat -> Request -> Reply;
  sigint : nat -> bool
}.

(** ** Shared store and worker objects *)

Record World := mkWorld {
  config : Config;
  collector : MetricsCollector.t;
  now : nat
}.

(** Control points of the coroutine [StateMachine.run]:
    - [AtWhile]: about to test the [while] condition (line 48);
    - [AtFor i]: about to fetch the task number [i] of the [for] loop
      (line 53);
    - [Awaiting i nm req]: suspended in [execute_task] on the request [req]
      of the task number [i], whose name is [nm] (line 26);
    - [Returned]: the coroutine has returned. *)
Inductive Pc :=
  | AtWhile
  | AtFor (i : nat)
  | Awaiting (i : nat) (task_name : string) (req : Request)
  | Returned.

Record StateMachine := mkStateMachine {
  credentials : list Credential;
  current_credential : option Credential;
  state : string;
  metrics : list Metric.t;
  pc : Pc
}.

(** [StateMachine.__init__], followed by the creation of the coroutine
    [run()]. *)
Definition StateMachine_init (cfg : Config) (creds : list Credential)
  : StateMachine :=
  {| credentials := creds;
     current_credential := None;
     state := default "INITIAL" (initial_state cfg);
     metrics := [];
     pc := AtWhile |}.

Definition set_pc (p : Pc) (sm : StateMachine) : StateMachine :=
  {| credentials := credentials sm;
     current_credential := current_credential sm;
     state := state sm;
     metrics := metrics sm;
     pc := p |}.

Definition set_state (s : string) (sm : StateMachine) : StateMachine :=
  {| credentials := credentials sm;
     current_credential := current_credential sm;
     state := s;
     metrics := metrics sm;
     pc := pc sm |}.

Definition append_metric (m : Metric.t) (sm : StateMachine) : StateMachine :=
  {| credentials := credentials sm;
     current_credential := current_credential sm;
     state := state sm;
     metrics := metrics sm ++ [m];
     pc := pc sm |}.

(** ** Reading the shared [running] flag *)

Definition tick (w : World) : World :=
  {| config := config w; collector := collector w; now := S (now w) |}.

(** The signal handler [collector.stop] runs before the read when SIGINT
    has been delivered. *)
Definition deliver (e : Env) (w : World) : World :=
  if sigint e (now w)
  then {| config := config w;
          collector := MetricsCollector.stop (collector w);
          now := now w |}
  else w.

Definition poll (e : Env) (w : World) : bool * World :=
  let w1 := deliver e w in
  (MetricsCollector.running (collector w1), tick w1).

(** ** [execute_task] *)

(** [str.lower] on strings of bytes: the letters [A] to [Z] are mapped to
    [a] to [z] and every other byte is kept, where [str.lower] also maps
    the upper-case letters outside ASCII. The two agree on the method names
    made of ASCII characters, which the names of the request methods of
    the session are; a name with another letter is no attribute of the
    session in either form, the case of [no_attribute] below. *)
Definition lower_ascii (a : Ascii.ascii) : Ascii.ascii :=
  let n := Ascii.nat_of_ascii a in
  if (65 <=? n)%nat && (n <=? 90)%nat then Ascii.ascii_of_nat (n + 32)
  else a.

Fixpoint lower (s : string) : string :=
  match s with
  | EmptyString => EmptyString
  | String a r => String (lower_ascii a) (lower r)
  end.

(** Truth value of [self.current_credential]: [None] and the empty
    dictionary are false. *)
Definition truthy (c : option Credential) : bool :=
  match c with
  | Some d => negb (bool_decide (d = ∅))
  | None => false
  end.

(** [params["data"].update(cred)]: the keys of [cred] override. *)
Definition update (cred : Credential) (d : Body) : Body := cred ∪ d.

(** The task object at position [i] of state [s] is replaced in the shared
    configuration: this is how the in-place [update] of its [data]
    dictionary shows in the store. *)
Definition store_task (s : string) (i : nat) (t : Task) (cfg : Config)
  : Config :=
  {| initial_state := initial_state cfg;
     states :=
       alter (fun sd => {| tasks := <[i := t]> (tasks sd);
                           transitions := transitions sd |})
             s (states cfg) |}.

Definition set_config (cfg : Config) (w : World) : World :=
  {| config := cfg; collector := collector w; now := now w |}.

(** Lines 19-26, up to the suspension, when the session has the method:
    the method is looked up, the credential is merged into the task's own
    [data] dictionary and the request leaves. [i] is the position of [t] in
    the task list of the worker's current state. When the lookup of line 21
    fails, nothing of this happens: see [step_exn]. *)
Definition execute_task_send (w : World) (sm : StateMachine) (i : nat)
    (t : Task) : World * Request :=
  let m := lower (method t) in
  let p := default {| data := None; kwargs := ∅ |} (params t) in
  match data p with
  | Some d =>
      if truthy (current_credential sm) then
        let p' := {| data := Some (update (default ∅ (current_credential sm)) d);
                     kwargs := kwargs p |} in
        let t' := {| name := name t; method := method t; url := url t;
                     params := Some p' |} in
        (set_config (store_task (state sm) i t' (config w)) w,
         {| verb := m; req_url := url t; req_params := p' |})
      else (w, {| verb := m; req_url := url t; req_params := p |})
  | None => (w, {| verb := m; req_url := url t; req_params := p |})
  end.

(** Lines 27-45, after the suspension: one metric is appended and the
    status (or [None]) is returned. *)
Definition execute_task_recv (sm : StateMachine) (task_name : string)
    (r : Reply) : StateMachine * option Z :=
  match outcome r with
  | Response st =>
      (append_metric
         {| Metric.state := state sm; Metric.task := task_name;
            Metric.status := Some st; Metric.response_time := elapsed r;
            Metric.error := None |} sm,
       Some st)
  | ClientError msg =>
      (append_metric
         {| Metric.state := state sm; Metric.task := task_name;
            Metric.status := None; Metric.response_time := elapsed r;
            Metric.error := Some msg |} sm,
       None)
  end.

(** The whole of [execute_task], when nothing else runs during the
    request. *)
Definition execute_task (e : Env) (w : World) (sm : StateMachine) (i : nat)
    (t : Task) : World * StateMachine * option Z :=
  let '(w1, req) := execute_task_send w sm i t in
  let '(sm1, st) := execute_task_recv sm (name t) (session e (now w1) req) in
  (tick w1, sm1, st).

(** ** [run] *)

(** The loop of lines 61-67: the first transition whose condition accepts
    the status. *)
Fixpoint first_transition (trs : list Transition) (status : option Z)
  : option Transition :=
  match trs with
  | [] => None
  | tr :: rest =>
      if condition tr status then Some tr
      else first_transition rest status
  end.

(** Lines 57-58. *)
Definition take_credential (sm : StateMachine) : StateMachine :=
  if bool_decide (state sm = "LOGIN") then
    match credentials sm with
    | c :: rest =>
        {| credentials := rest;
           current_credential := Some c;
           state := state sm;
           metrics := metrics sm;
           pc := pc sm |}
    | [] => sm
    end
  else sm.

(** Lines 61-70, once [execute_task] has returned [status] for the task
    number [i]. *)
Definition follow (trs : list Transition) (status : option Z) (i : nat)
    (sm : StateMachine) : StateMachine :=
  match first_transition trs status with
  | Some tr =>
      if default false (terminate tr)
      then set_pc Returned (set_state (next_state tr) sm)
      else set_pc AtWhile (set_state (next_state tr) sm)
  | None => set_pc (AtFor (S i)) sm
  end.

(** One move of the coroutine. [None]: the coroutine cannot move, either
    because it has returned or because the state it works on is missing
    from the configuration (which [run] rules out by its [while] test). *)
Definition step (e : Env) (w : World) (sm : StateMachine)
  : option (World * StateMachine) :=
  match pc sm with
  | Returned => None
  | AtWhile =>
      match states (config w) !! state sm with
      | None => Some (w, set_pc Returned sm)
      | Some _ =>
          let '(r, w1) := poll e w in
          Some (w1, set_pc (if r then AtFor 0 else Returned) sm)
      end
  | AtFor i =>
      sd ← states (config w) !! state sm;
      match tasks sd !! i with
      | None => Some (w, set_pc AtWhile sm)
      | Some t =>
          let '(r, w1) := poll e w in
          if r then
            let sm1 := take_credential sm in
            let '(w2, req) := execute_task_send w1 sm1 i t in
            Some (w2, set_pc (Awaiting i (name t) req) sm1)
          else Some (w1, set_pc AtWhile sm)
      end
  | Awaiting i nm req =>
      sd ← states (config w) !! state sm;
      let '(sm1, st) := execute_task_recv sm nm (session e (now w) req) in
      Some (tick w, follow (transitions sd) st i sm1)
  end.

Fixpoint steps (e : Env) (n : nat) (w : World) (sm : StateMachine)
  : option (World * StateMachine) :=
  match n with
  | 0 => Some (w, sm)
  | S n' =>
      match step e w sm with
      | Some (w1, sm1) => steps e n' w1 sm1
      | None => None
      end
  end.

(** [run e fuel w sm] is the world and the worker at the return of the
    coroutine, when it returns within [fuel] moves. *)
Fixpoint run (e : Env) (fuel : nat) (w : World) (sm : StateMachine)
  : option (World * StateMachine) :=
  match pc sm with
  | Returned => Some (w, sm)
  | _ =>
      match fuel with
      | 0 => None
      | S f =>
          match step e w sm with
          | Some (w1, sm1) => run e f w1 sm1
          | None => None
          end
      end
  end.

(** ** Exceptions that [execute_task] does not catch *)

(** The [try] of lines 20-45 has one handler, for [aiohttp.ClientError]
    (line 36). Two calls inside it can raise an exception of another
    class: [getattr] on line 21, when the session has no attribute of the
    lower-cased method name ([AttributeError]), and the request of line 26
    ([asyncio.TimeoutError] when the time allowed to the request runs out,
    for one). [no_attribute m] tells whether the session lacks the
    attribute [m]; [call_raises n req] is the class of the exception when
    the request [req], event number [n] of the run, is left by an
    exception that is not an [aiohttp.ClientError]. [session], [Outcome]
    and [step] describe the calls that give a response or an
    [aiohttp.ClientError], on a session that has the method. *)
Record Uncaught := mkUncaught {
  no_attribute : string -> bool;
  call_raises : nat -> Request -> option string
}.

Definition no_exception : Uncaught :=
  {| no_attribute := fun _ => false; call_raises := fun _ _ => None |}.

(** How a move of the coroutine ends: the coroutine goes on, or has
    returned, as its [pc] tells; or an exception leaves [execute_task] and,
    nothing in [run] catching it, [run] itself. *)
Inductive Move :=
  | Goes (w : World) (sm : StateMachine)
  | Raises (exn : string) (w : World) (sm : StateMachine).

Definition goes (r : option (World * StateMachine)) : option Move :=
  match r with
  | Some (w, sm) => Some (Goes w sm)
  | None => None
  end.

(** One move of the coroutine on a session with the exceptions [u]. The
    credential of lines 57-58 is taken before [execute_task] is entered;
    the exception of line 21 comes before the dictionary of the task is
    updated and before any request; neither exception passes by an
    [append] to [self.metrics]. *)
Definition step_exn (e : Env) (u : Uncaught) (w : World) (sm : StateMachine)
  : option Move :=
  match pc sm with
  | AtFor i =>
      match states (config w) !! state sm ≫= (fun sd => tasks sd !! i) with
      | Some t =>
          let '(r, w1) := poll e w in
          if r && no_attribute u (lower (method t))
          then Some (Raises "AttributeError" w1 (take_credential sm))
          else goes (step e w sm)
      | None => goes (step e w sm)
      end
  | Awaiting i nm req =>
      match states (config w) !! state sm, call_raises u (now w) req with
      | Some _, Some exn => Some (Raises exn (tick w) sm)
      | _, _ => goes (step e w sm)
      end
  | _ => goes (step e w sm)
  end.

(** The end of the coroutine within [fuel] moves: the world, the worker and
    the exception that left [run], if any. *)
Fixpoint run_exn (e : Env) (u : Uncaught) (fuel : nat) (w : World)
    (sm : StateMachine) : option (World * StateMachine * option string) :=
  match pc sm with
  | Returned => Some (w, sm, None)
  | _ =>
      match fuel with
      | 0 => None
      | S f =>
          match step_exn e u w sm with
          | Some (Goes w1 sm1) => run_exn e u f w1 sm1
          | Some (Raises exn w1 sm1) => Some (w1, sm1, Some exn)
          | None => None
          end
      end
  end.

(** ** The orchestration loop of [main] *)

(** Every task created so far, in creation order; a task that has been
    started is never cancelled. *)
Record System := mkSystem {
  world : World;
  workers : list StateMachine
}.

(** Lines 140-144: one worker per credential of the pool, each with its own
    copy of the whole pool. *)
Definition spawn (cfg : Config) (pool : list Credential)
  : list StateMachine :=
  replicate (length pool) (StateMachine_init cfg pool).

Definition finished (sm : StateMachine) : bool :=
  match pc sm with
  | Returned => true
  | _ => false
  end.

(** The event loop lets the worker number [j] make one move. The event
    loop of the program resumes a worker only at its request and lets it
    run up to its next request; a schedule describes this by naming the
    worker for each of these moves in a row. *)
Definition step_worker (e : Env) (sys : System) (j : nat) : System :=
  match workers sys !! j with
  | Some sm =>
      match step e (world sys) sm with
      | Some (w1, sm1) =>
          {| world := w1; workers := <[j := sm1]> (workers sys) |}
      | None => sys
      end
  | None => sys
  end.

Definition schedule (e : Env) (sched : list nat) (sys : System) : System :=
  foldl (step_worker e) sys sched.

(** Lines 154-155. *)
Definition harvest (population : list StateMachine)
    (c : MetricsCollector.t) : MetricsCollector.t :=
  foldl (fun c sm => MetricsCollector.add_metrics (metrics sm) c)
        c population.

Definition set_collector (c : MetricsCollector.t) (w : World) : World :=
  {| config := config w; collector := c; now := now w |}.

(** One pass of the body of the [while] loop of [main] (lines 140-155).
    [sched] lists the moves the event loop makes while [main] is suspended
    in [asyncio.wait]; [main] is resumed only when a task of the round is
    done, so a schedule that leaves none done gives [None] (an empty pool
    leaves none to wait for). The result
    holds the index of the first worker of the round and the workers of the
    round as they are when harvested. *)
Definition round (e : Env) (pool : list Credential) (sched : list nat)
    (sys : System) : option (System * (nat * list StateMachine)) :=
  let base := length (workers sys) in
  let sys1 := {| world := world sys;
                 workers := workers sys ++ spawn (config (world sys)) pool |} in
  let sys2 := schedule e sched sys1 in
  let state_machines := drop base (workers sys2) in
  if existsb finished state_machines then
    Some ({| world := set_collector
                        (harvest state_machines (collector (world sys2)))
                        (world sys2);
             workers := workers sys2 |},
          (base, state_machines))
  else None.

(** The [while collector.running] loop of [main], one schedule per round;
    the second component logs what each round harvested. *)
Fixpoint main_loop (e : Env) (pool : list Credential)
    (scheds : list (list nat)) (sys : System)
  : option (System * list (nat * list StateMachine)) :=
  match scheds with
  | [] => Some (sys, [])
  | sched :: rest =>
      let '(r, w1) := poll e (world sys) in
      let sys1 := {| world := w1; workers := workers sys |} in
      if r then
        match round e pool sched sys1 with
        | Some (sys2, h) =>
            match main_loop e pool rest sys2 with
            | Some (sys3, log) => Some (sys3, h :: log)
            | None => None
            end
        | None => None
        end
      else Some (sys1, [])
  end.

(** ** The configuration and the credentials of [main] *)

Definition status_is (n : Z) (status : option Z) : bool :=
  bool_decide (status = Some n).

Definition status_is_not (n : Z) (status : option Z) : bool :=
  negb (status_is n status).

Definition login_task : Task :=
  {| name := "login"; method := "POST"; url := "https://example.com/login";
     params := Some {| data := Some ∅; kwargs := ∅ |} |}.

Definition fetch_task : Task :=
  {| name := "fetch_data"; method := "GET";
     url := "https://example.com/data"; params := None |}.

Definition sink : StateDef := {| tasks := []; transitions := [] |}.

Definition login_state : StateDef :=
  {| tasks := [login_task];
     transitions :=
       [ {| condition := status_is 200; next_state := "FETCH_DATA";
            terminate := None |};
         {| condition := status_is_not 200; next_state := "LOGIN_FAILED";
            terminate := Some true |} ] |}.

Definition main_config : Config :=
  {| initial_state := Some "LOGIN";
     states :=
       <["LOGIN" := login_state]>
       (<["FETCH_DATA" :=
           {| tasks := [fetch_task];
              transitions :=
                [ {| condition := status_is 200; next_state := "COMPLETE";
                     terminate := None |};
                  {| condition := status_is_not 200; next_state := "ERROR";
                     terminate := Some true |} ] |}]>
       (<["LOGIN_FAILED" := sink]>
       (<["ERROR" := sink]>
       (<["COMPLETE" := sink]> ∅)))) |}.

Definition credential (u p : string) : Credential :=
  <["username" := u]> (<["password" := p]> ∅).

Definition main_credentials : list Credential :=
  [ credential "user1" "pass1";
    credential "user2" "pass2";
    credential "user3" "pass3" ].

Definition initial_world (cfg : Config) : World :=
  {| config := cfg; collector := MetricsCollector.init; now := 0 |}.

(** ** Vocabulary of the statements, and the configurations they are
       tried on *)

Definition reply_status (r : Reply) : option Z :=
  match outcome r with
  | Response st => Some st
  | ClientError _ => None
  end.

(** An environment that answers every request with [r] and never delivers
    SIGINT. *)
Definition always (r : Reply) : Env :=
  {| session := fun _ _ => r; sigint := fun _ => false |}.

Definition ok_200 : Reply := {| outcome := Response 200; elapsed := 5 |}.
Definition error_500 : Reply := {| outcome := Response 500; elapsed := 7 |}.
Definition refused : Reply :=
  {| outcome := ClientError "Cannot connect to host"; elapsed := 3 |}.

(** [main]'s configuration without its ["initial_state"] key. *)
Definition no_initial_config : Config :=
  {| initial_state := None; states := states main_config |}.

(** A state whose two transitions accept every status. *)
Definition to_X : Transition :=
  {| condition := fun _ => true; next_state := "X"; terminate := None |}.

Definition to_Y : Transition :=
  {| condition := fun _ => true; next_state := "Y"; terminate := None |}.

Definition overlap_state : StateDef :=
  {| tasks := [fetch_task]; transitions := [to_X; to_Y] |}.

Definition overlap_config : Config :=
  {| initial_state := Some "A"; states := <["A" := overlap_state]> ∅ |}.

Definition fetch_request : Request :=
  {| verb := "get"; req_url := "https://example.com/data";
     req_params := {| data := None; kwargs := ∅ |} |}.

Definition awaiting (s : string) (nm : string) (req : Request)
  : StateMachine :=
  {| credentials := []; current_credential := None; state := s;
     metrics := []; pc := Awaiting 0 nm req |}.

Definition login_request (d : Body) : Request :=
  {| verb := "post"; req_url := "https://example.com/login";
     req_params := {| data := Some d; kwargs := ∅ |} |}.

Definition at_for (s : string) (i : nat) (creds : list Credential)
  : StateMachine :=
  {| credentials := creds; current_credential := None; state := s;
     metrics := []; pc := AtFor i |}.

(** The coroutine keeps moving and has not returned, however many moves it
    is given. *)
Definition never_returns (e : Env) (w : World) (sm : StateMachine) : Prop :=
  ∀ n, ∃ w' sm', steps e n w sm = Some (w', sm') ∧ pc sm' ≠ Returned.

(** The graph of the scenario: [A] goes to [B] on status 200 and to [F],
    with the ["terminate"] flag, on any other result; [B] and [F] have no
    task and no transition. *)
Definition task_a : Task :=
  {| name := "a"; method := "GET"; url := "https://example.com/a";
     params := None |}.

Definition state_a : StateDef :=
  {| tasks := [task_a];
     transitions :=
       [ {| condition := status_is 200; next_state := "B";
            terminate := None |};
         {| condition := status_is_not 200; next_state := "F";
            terminate := Some true |} ] |}.

Definition scenario_config : Config :=
  {| initial_state := Some "A";
     states := <["A" := state_a]> (<["B" := sink]> (<["F" := sink]> ∅)) |}.

Definition metric_a_200 : Metric.t :=
  {| Metric.state := "A"; Metric.task := "a"; Metric.status := Some 200%Z;
     Metric.response_time := 5; Metric.error := None |}.

(** Every reply the worker takes within its first [bound] moves from
    [(w, sm)] is matched by no transition of [trs]. *)
Definition no_match_within (e : Env) (trs : list Transition) (bound : nat)
    (w : World) (sm : StateMachine) : Prop :=
  ∀ j w1 sm1 i nm req,
    j < bound → steps e j w sm = Some (w1, sm1) →
    pc sm1 = Awaiting i nm req →
    first_transition trs (reply_status (session e (now w1) req)) = None.

(** A state whose only transition wants the status 200. *)
Definition ping_task : Task :=
  {| name := "ping"; method := "GET"; url := "https://example.com/ping";
     params := None |}.

Definition polling_state : StateDef :=
  {| tasks := [ping_task];
     transitions :=
       [ {| condition := status_is 200; next_state := "Q";
            terminate := None |} ] |}.

Definition polling_config : Config :=
  {| initial_state := Some "P"; states := <["P" := polling_state]> ∅ |}.

Definition unavailable_503 : Reply :=
  {| outcome := Response 503; elapsed := 9 |}.

(** The URL of [ping_task] is answered with 503 and every other URL with
    200; SIGINT is delivered at event [stop_time]. *)
Definition ping_unavailable (stop_time : nat) : Env :=
  {| session := fun _ req =>
       if bool_decide (req_url req = "https://example.com/ping")
       then unavailable_503 else ok_200;
     sigint := fun n => stop_time <=? n |}.

(** The login is not answered in the time allowed to a request. *)
Definition login_times_out : Uncaught :=
  {| no_attribute := fun _ => false;
     call_raises := fun _ req =>
       if bool_decide (req_url req = "https://example.com/login")
       then Some "TimeoutError" else None |}.

(** A task whose method is no attribute of the session. *)
Definition typo_task : Task :=
  {| name := "a"; method := "FETCH"; url := "https://example.com/a";
     params := None |}.

Definition typo_config : Config :=
  {| initial_state := Some "A";
     states := <["A" := {| tasks := [typo_task]; transitions := [] |}]> ∅ |}.

Definition no_fetch_attribute : Uncaught :=
  {| no_attribute := fun m => bool_decide (m = "fetch");
     call_raises := fun _ _ => None |}.


(** The login answered at event 7 succeeds, every other login fails, and
    every [get] succeeds. *)
Definition one_login_succeeds : Env :=
  {| session := fun n req =>
       if bool_decide (verb req = "post") && negb (n =? 7)
       then refused else ok_200;
     sigint := fun _ => false |}.

(** The moves of the first round: the three workers send their login; the
    login of worker 1 is answered, with 200, and worker 1 goes on to send
    its [fetch_data]; then the login of worker 0 fails and worker 0
    returns. *)
Definition first_round : list nat := [0; 0; 1; 1; 2; 2; 1; 1; 1; 0].

Definition fresh_system (cfg : Config) : System :=
  {| world := initial_world cfg; workers := [] |}.

Definition metric_login_refused : Metric.t :=
  {| Metric.state := "LOGIN"; Metric.task := "login";
     Metric.status := None; Metric.response_time := 3;
     Metric.error := Some "Cannot connect to host" |}.

Definition metric_login_200 : Metric.t :=
  {| Metric.state := "LOGIN"; Metric.task := "login";
     Metric.status := Some 200%Z; Metric.response_time := 5;
     Metric.error := None |}.

(** Two rounds: in the second, the three new workers send their login,
    the login of worker 2 of the first round fails, and worker 3 fails its
    login and returns. *)
Definition two_rounds : list (list nat) :=
  [first_round; [3; 3; 4; 4; 5; 5; 2; 3]].

(** The initial state and every transition target name a state of the
    graph. *)
Definition consistent (cfg : Config) : Prop :=
  is_Some (states cfg !! default "INITIAL" (initial_state cfg)) ∧
  ∀ s sd tr,
    states cfg !! s = Some sd → tr ∈ transitions sd →
    is_Some (states cfg !! next_state tr).

(** The claim as written: with an inconsistent configuration the run stops
    before any worker is created, so no run of [main] on it gets through a
    round with workers in the system. *)
Definition fails_fast : Prop :=
  ∀ e cfg pool scheds sys' log,
    ¬ consistent cfg →
    main_loop e pool scheds (fresh_system cfg) = Some (sys', log) →
    workers sys' = [].

(** [main]'s graph with an initial state it does not define. *)
Definition dangling_config : Config :=
  {| initial_state := Some "START"; states := states main_config |}.

(** A graph whose only transition leads to a state it does not define. *)
Definition to_nowhere : Transition :=
  {| condition := fun _ => true; next_state := "NOWHERE";
     terminate := None |}.

Definition broken_state : StateDef :=
  {| tasks := [task_a]; transitions := [to_nowhere] |}.

Definition broken_config : Config :=
  {| initial_state := Some "A"; states := <["A" := broken_state]> ∅ |}.

Definition request_a : Request :=
  {| verb := "get"; req_url := "https://example.com/a";
     req_params := {| data := None; kwargs := ∅ |} |}.

(** ** Vocabulary of the further properties *)

(** What [execute_task] keeps of a task: its name, method and URL, the
    keyword arguments other than [data], and whether it has a [data]
    dictionary. *)
Definition same_task (t t' : Task) : Prop :=
  name t' = name t ∧ method t' = method t ∧ url t' = url t ∧
  kwargs <$> params t' = kwargs <$> params t ∧
  (is_Some (params t' ≫= data) ↔ is_Some (params t ≫= data)).

Definition same_def (sd sd' : StateDef) : Prop :=
  transitions sd' = transitions sd ∧ Forall2 same_task (tasks sd) (tasks sd').

(** Two configurations with the same initial state and the same states,
    each with the same transitions and, task for task, the same tasks up to
    the contents of their [data] dictionaries. *)
Definition same_graph (cfg cfg' : Config) : Prop :=
  initial_state cfg' = initial_state cfg ∧
  ∀ s, option_Forall2 same_def (states cfg !! s) (states cfg' !! s).

(** A coroutine that is inside the [for] loop works on a state of the
    graph. *)
Definition in_graph (w : World) (sm : StateMachine) : Prop :=
  match pc sm with
  | AtFor _ | Awaiting _ _ _ => is_Some (states (config w) !! state sm)
  | AtWhile | Returned => True
  end.

(** 1 for a worker that is waiting for a reply, 0 otherwise. *)
Definition waiting (sm : StateMachine) : nat :=
  match pc sm with
  | Awaiting _ _ _ => 1
  | _ => 0
  end.

(** A worker in state ["LOGIN"], about to run its first task, that holds
    the credential [c] and has an empty queue. *)
Definition holding (c : Credential) : StateMachine :=
  {| credentials := []; current_credential := Some c; state := "LOGIN";
     metrics := []; pc := AtFor 0 |}.

(** A record has a status and no error, or an error and no status. *)
Definition one_of_status_error (m : Metric.t) : Prop :=
  (is_Some (Metric.status m) ∧ Metric.error m = None) ∨
  (Metric.status m = None ∧ is_Some (Metric.error m)).

(** The state a record names is a state of the graph, and the task it
    names is the name of a task of that state. *)
Definition names_task (cfg : Config) (m : Metric.t) : Prop :=
  ∃ sd t, states cfg !! Metric.state m = Some sd ∧ t ∈ tasks sd ∧
          name t = Metric.task m.

Definition valid_record (cfg : Config) (m : Metric.t) : Prop :=
  one_of_status_error m ∧ names_task cfg m.

(** A worker that waits for a reply waits for the reply to a task of its
    state, under the name of that task. *)
Definition awaits_task (w : World) (sm : StateMachine) : Prop :=
  match pc sm with
  | Awaiting i nm _ =>
      ∃ sd t, states (config w) !! state sm = Some sd ∧
              tasks sd !! i = Some t ∧ name t = nm
  | _ => True
  end.

Definition sound (w : World) (sm : StateMachine) : Prop :=
  awaits_task w sm ∧ Forall (valid_record (config w)) (metrics sm).

(** [s] is the target of a transition declared in the graph. *)
Definition declared_target (cfg : Config) (s : string) : Prop :=
  ∃ s0 sd tr, states cfg !! s0 = Some sd ∧ tr ∈ transitions sd ∧
              next_state tr = s.

(** The state ["FETCH_DATA"] of [main]'s configuration. *)
Definition fetch_state : StateDef :=
  {| tasks := [fetch_task];
     transitions :=
       [ {| condition := status_is 200; next_state := "COMPLETE";
            terminate := None |};
         {| condition := status_is_not 200; next_state := "ERROR";
            terminate := Some true |} ] |}.

(** The states of [main]'s configuration other than ["LOGIN"]. *)
Definition past_login (s : string) : Prop :=
  s = "FETCH_DATA" ∨ s = "LOGIN_FAILED" ∨ s = "ERROR" ∨ s = "COMPLETE".

(** The credentials of a worker of [main]'s configuration created with the
    queue [pool]: either it is in ["LOGIN"] and has not sent its login, and
    its queue is [pool]; or it has sent its login and its queue is [pool]
    less its first element, which it holds. *)
Definition one_credential (pool : list Credential) (w : World)
    (sm : StateMachine) : Prop :=
  same_graph main_config (config w) ∧
  ((state sm = "LOGIN" ∧
    (pc sm = AtWhile ∨ pc sm = AtFor 0 ∨ pc sm = Returned) ∧
    credentials sm = pool ∧ current_credential sm = None) ∨
   (credentials sm = tail pool ∧ current_credential sm = head pool ∧
    ((state sm = "LOGIN" ∧ ∃ nm req, pc sm = Awaiting 0 nm req) ∨
     past_login (state sm)))).

(** * Properties *)

(** ** Elementary facts about the moves *)

#[local] Arguments execute_task_send : simpl never.
#[local] Arguments execute_task_recv : simpl never.
#[local] Arguments take_credential : simpl never.
#[local] Arguments poll : simpl never.
#[local] Arguments follow : simpl never.
#[local] Arguments store_task : simpl never.

Lemma execute_task_recv_status sm nm r :
  snd (execute_task_recv sm nm r) = reply_status r.
Proof. unfold execute_task_recv, reply_status. by destruct (outcome r). Qed.

Lemma execute_task_recv_frame sm nm r :
  let sm1 := fst (execute_task_recv sm nm r) in
  state sm1 = state sm ∧ pc sm1 = pc sm ∧
  credentials sm1 = credentials sm ∧
  current_credential sm1 = current_credential sm ∧
  length (metrics sm1) = S (length (metrics sm)).
Proof.
  unfold execute_task_recv. destruct (outcome r); simpl;
    rewrite length_app; simpl; repeat split; lia.
Qed.

Lemma first_transition_head tr rest st :
  condition tr st = true → first_transition (tr :: rest) st = Some tr.
Proof. intros H. simpl. by rewrite H. Qed.

Lemma first_transition_Some trs st tr :
  first_transition trs st = Some tr →
  ∃ before after,
    trs = before ++ tr :: after ∧ condition tr st = true ∧
    Forall (fun t => condition t st = false) before.
Proof.
  induction trs as [|t trs IH]; simpl; [done|].
  destruct (condition t st) eqn:Hc.
  - intros [= ->]. by exists [], trs.
  - intros H. destruct (IH H) as (b & a & -> & Hc' & Hb).
    exists (t :: b), a. split; [done|]. split; [done|]. by constructor.
Qed.

Lemma first_transition_None trs st :
  first_transition trs st = None ↔
  Forall (fun t => condition t st = false) trs.
Proof.
  induction trs as [|t trs IH]; simpl.
  - split; [constructor | done].
  - destruct (condition t st) eqn:Hc.
    + split; [done|]. intros H. inversion H; congruence.
    + rewrite IH. split; [by constructor | by inversion 1].
Qed.

Lemma step_Returned e w sm : pc sm = Returned → step e w sm = None.
Proof. unfold step. by intros ->. Qed.

Lemma step_AtWhile_absent e w sm :
  pc sm = AtWhile → states (config w) !! state sm = None →
  step e w sm = Some (w, set_pc Returned sm).
Proof. unfold step. by intros -> ->. Qed.

Lemma step_AtWhile_present e w sm sd :
  pc sm = AtWhile → states (config w) !! state sm = Some sd →
  step e w sm =
    Some (snd (poll e w),
          set_pc (if fst (poll e w) then AtFor 0 else Returned) sm).
Proof.
  intros Hpc Hs. unfold step. rewrite Hpc, Hs.
  by destruct (poll e w) as [r w1].
Qed.

Lemma step_AtFor_exhausted e w sm sd i :
  pc sm = AtFor i → states (config w) !! state sm = Some sd →
  tasks sd !! i = None →
  step e w sm = Some (w, set_pc AtWhile sm).
Proof.
  intros Hpc Hs Ht. unfold step. rewrite Hpc, Hs.
  cbn [mbind option_bind]. by rewrite Ht.
Qed.

Lemma step_AtFor_stopped e w sm sd i t :
  pc sm = AtFor i → states (config w) !! state sm = Some sd →
  tasks sd !! i = Some t → fst (poll e w) = false →
  step e w sm = Some (snd (poll e w), set_pc AtWhile sm).
Proof.
  intros Hpc Hs Ht Hr. unfold step. rewrite Hpc, Hs.
  cbn [mbind option_bind]. rewrite Ht.
  destruct (poll e w) as [r w1]. cbn [fst snd] in *. by subst r.
Qed.

Lemma step_AtFor_task e w sm sd i t :
  pc sm = AtFor i → states (config w) !! state sm = Some sd →
  tasks sd !! i = Some t → fst (poll e w) = true →
  step e w sm =
    let sm1 := take_credential sm in
    let wr := execute_task_send (snd (poll e w)) sm1 i t in
    Some (fst wr, set_pc (Awaiting i (name t) (snd wr)) sm1).
Proof.
  intros Hpc Hs Ht Hr. unfold step. rewrite Hpc, Hs.
  cbn [mbind option_bind]. rewrite Ht.
  destruct (poll e w) as [r w1]. cbn [fst snd] in *. subst r.
  by destruct (execute_task_send w1 (take_credential sm) i t).
Qed.

Lemma step_Awaiting e w sm sd i nm req :
  pc sm = Awaiting i nm req → states (config w) !! state sm = Some sd →
  step e w sm =
    let r := session e (now w) req in
    Some (tick w,
          follow (transitions sd) (reply_status r) i
                 (fst (execute_task_recv sm nm r))).
Proof.
  intros Hpc Hs. unfold step. rewrite Hpc, Hs.
  cbn [mbind option_bind].
  rewrite <- execute_task_recv_status with (sm := sm) (nm := nm).
  by destruct (execute_task_recv sm nm (session e (now w) req)).
Qed.

Lemma run_Returned e fuel w sm :
  pc sm = Returned → run e fuel w sm = Some (w, sm).
Proof. intros H. destruct fuel; simpl; by rewrite H. Qed.

Lemma take_credential_frame sm :
  state (take_credential sm) = state sm ∧
  metrics (take_credential sm) = metrics sm ∧
  pc (take_credential sm) = pc sm.
Proof.
  unfold take_credential. case_bool_decide; [|done].
  by destruct (credentials sm).
Qed.

(** ** C10: the default initial state and the immediate return *)

(** Claim C10. When the configuration has no ["initial_state"] key a new
    worker is in state ["INITIAL"]; and a worker that starts [run] in a
    state that is not a key of [config["states"]] returns at once: the world
    (configuration, collector and clock, hence the number of requests) is
    untouched, no metric is appended and the credential queue is the same. *)
Theorem C10_default_state_and_immediate_return
    (e : Env) (w : World) (cfg : Config) (creds : list Credential)
    (sm : StateMachine) (fuel : nat) :
  (initial_state cfg = None →
   state (StateMachine_init cfg creds) = "INITIAL") ∧
  (pc sm = AtWhile → states (config w) !! state sm = None →
   ∃ sm', run e (S fuel) w sm = Some (w, sm') ∧
          pc sm' = Returned ∧ metrics sm' = metrics sm ∧
          credentials sm' = credentials sm ∧ state sm' = state sm ∧
          current_credential sm' = current_credential sm).
Proof.
  split.
  - intros H. unfold StateMachine_init. simpl. by rewrite H.
  - intros Hpc Hs. exists (set_pc Returned sm).
    split; [|done].
    simpl. rewrite Hpc. rewrite (step_AtWhile_absent _ _ _ Hpc Hs).
    by apply run_Returned.
Qed.

Lemma C10_witness :
  state (StateMachine_init no_initial_config main_credentials) = "INITIAL" ∧
  ∃ sm', run (always ok_200) 1 (initial_world no_initial_config)
             (StateMachine_init no_initial_config main_credentials)
         = Some (initial_world no_initial_config, sm') ∧
         pc sm' = Returned ∧ metrics sm' = [] ∧
         credentials sm' = main_credentials ∧ state sm' = "INITIAL" ∧
         current_credential sm' = None.
Proof.
  destruct (C10_default_state_and_immediate_return
              (always ok_200) (initial_world no_initial_config)
              no_initial_config main_credentials
              (StateMachine_init no_initial_config main_credentials) 0)
    as [H1 H2].
  split; [apply H1; reflexivity | apply H2; reflexivity].
Defined.

(** ** C3: the first matching transition wins *)

Lemma first_transition_earliest before tr after st :
  Forall (fun t => condition t st = false) before →
  condition tr st = true →
  first_transition (before ++ tr :: after) st = Some tr.
Proof.
  intros Hb Hc. induction Hb as [|t before Ht _ IH]; cbn.
  - by rewrite Hc.
  - by rewrite Ht.
Qed.

(** Claim C3. A worker resumes from the request of a task of its state. The
    transitions of the state are tried in declared order against the status
    returned by [execute_task], and the first one whose condition accepts
    it gives the next state: whenever the transitions are
    [before ++ tr :: after], every condition of [before] rejects the status
    and the condition of [tr] accepts it, the worker's next state is the
    target of [tr], whatever [after] holds. In particular, with the
    transitions [[p1; p2]] and both conditions accepting, the next state is
    the target of [p1]. When no condition accepts the status the state is
    unchanged. *)
Theorem C3_first_match_wins
    (e : Env) (w : World) (sm : StateMachine) (sd : StateDef)
    (i : nat) (nm : string) (req : Request) :
  pc sm = Awaiting i nm req →
  states (config w) !! state sm = Some sd →
  ∃ w' sm',
    step e w sm = Some (w', sm') ∧
    (∀ before tr after,
       transitions sd = before ++ tr :: after →
       Forall (fun t => condition t
                          (reply_status (session e (now w) req)) = false)
              before →
       condition tr (reply_status (session e (now w) req)) = true →
       state sm' = next_state tr) ∧
    (∀ p1 p2,
       transitions sd = [p1; p2] →
       condition p1 (reply_status (session e (now w) req)) = true →
       condition p2 (reply_status (session e (now w) req)) = true →
       state sm' = next_state p1) ∧
    (Forall (fun t => condition t
                        (reply_status (session e (now w) req)) = false)
            (transitions sd) →
     state sm' = state sm).
Proof.
  intros Hpc Hs.
  rewrite (step_Awaiting _ _ _ _ _ _ _ Hpc Hs). cbn zeta.
  set (st := reply_status (session e (now w) req)).
  destruct (execute_task_recv_frame sm nm (session e (now w) req))
    as (Hst & _).
  cbn zeta in Hst.
  set (sm1 := fst (execute_task_recv sm nm (session e (now w) req))) in *.
  assert (∀ tr, first_transition (transitions sd) st = Some tr →
                state (follow (transitions sd) st i sm1) = next_state tr)
    as Hfollow.
  { intros tr Hft. unfold follow. rewrite Hft.
    by destruct (default false (terminate tr)). }
  eexists _, _. split; [reflexivity|]. split; [|split].
  - intros before tr after Htr Hb Hc. apply Hfollow.
    rewrite Htr. by apply first_transition_earliest.
  - intros p1 p2 Htr H1 _. apply Hfollow.
    rewrite Htr. by apply first_transition_head.
  - intros Hnone. apply first_transition_None in Hnone.
    unfold follow. by rewrite Hnone.
Qed.

(** With [main]'s state ["LOGIN"] and the status 500 the first transition
    rejects and the second accepts; with [overlap_state] both accept. *)
Lemma C3_witness :
  (∃ w' sm',
     step (always error_500) (initial_world main_config)
          (awaiting "LOGIN" "login" (login_request ∅)) = Some (w', sm') ∧
     state sm' = "LOGIN_FAILED") ∧
  (∃ w' sm',
     step (always ok_200) (initial_world overlap_config)
          (awaiting "A" "fetch_data" fetch_request) = Some (w', sm') ∧
     state sm' = "X").
Proof.
  split.
  - destruct (C3_first_match_wins (always error_500)
                (initial_world main_config)
                (awaiting "LOGIN" "login" (login_request ∅)) login_state
                0 "login" (login_request ∅) eq_refl eq_refl)
      as (w' & sm' & Hstep & Hfirst & _ & _).
    exists w', sm'. split; [exact Hstep|].
    apply (Hfirst
             [ {| condition := status_is 200; next_state := "FETCH_DATA";
                  terminate := None |} ]
             {| condition := status_is_not 200;
                next_state := "LOGIN_FAILED"; terminate := Some true |} []).
    + reflexivity.
    + by constructor.
    + reflexivity.
  - destruct (C3_first_match_wins (always ok_200)
                (initial_world overlap_config)
                (awaiting "A" "fetch_data" fetch_request) overlap_state
                0 "fetch_data" fetch_request eq_refl eq_refl)
      as (w' & sm' & Hstep & _ & Hboth & _).
    exists w', sm'. split; [exact Hstep|].
    by apply (Hboth to_X to_Y).
Defined.

(** ** C4: a terminal transition ends the run *)

(** Claim C4. When the first transition that accepts the status of a task
    has its ["terminate"] flag set, the worker moves to the target of that
    transition and [run] returns at once: the coroutine has no further move
    in any world, so it executes no other task, of this state or of any
    other. *)
Theorem C4_terminal_transition_halts
    (e : Env) (w : World) (sm : StateMachine) (sd : StateDef)
    (i : nat) (nm : string) (req : Request) (tr : Transition) :
  pc sm = Awaiting i nm req →
  states (config w) !! state sm = Some sd →
  first_transition (transitions sd) (reply_status (session e (now w) req))
    = Some tr →
  terminate tr = Some true →
  ∃ w' sm',
    step e w sm = Some (w', sm') ∧
    state sm' = next_state tr ∧ pc sm' = Returned ∧
    length (metrics sm') = S (length (metrics sm)) ∧
    (∀ e2 w2, step e2 w2 sm' = None) ∧
    (∀ fuel, run e fuel w' sm' = Some (w', sm')).
Proof.
  intros Hpc Hs Hft Hterm.
  rewrite (step_Awaiting _ _ _ _ _ _ _ Hpc Hs). cbn zeta.
  eexists _, _. split; [reflexivity|].
  unfold follow. rewrite Hft, Hterm. simpl.
  destruct (execute_task_recv_frame sm nm (session e (now w) req))
    as (_ & _ & _ & _ & Hlen).
  repeat split; try done.
  intros fuel. by apply run_Returned.
Qed.

Lemma C4_witness :
  ∃ w' sm',
    step (always error_500) (initial_world main_config)
         (awaiting "LOGIN" "login" (login_request ∅)) = Some (w', sm') ∧
    state sm' = "LOGIN_FAILED" ∧ pc sm' = Returned ∧
    length (metrics sm') = 1 ∧
    (∀ e2 w2, step e2 w2 sm' = None) ∧
    (∀ fuel, run (always error_500) fuel w' sm' = Some (w', sm')).
Proof.
  apply (C4_terminal_transition_halts (always error_500)
           (initial_world main_config)
           (awaiting "LOGIN" "login" (login_request ∅)) login_state
           0 "login" (login_request ∅)
           {| condition := status_is_not 200; next_state := "LOGIN_FAILED";
              terminate := Some true |}); reflexivity.
Defined.

(** ** One record for each call that returns or raises
       [aiohttp.ClientError] *)

Lemma follow_Returned trs st i sm :
  pc (follow trs st i sm) = Returned →
  ∃ tr, first_transition trs st = Some tr ∧ terminate tr = Some true.
Proof.
  unfold follow. destruct (first_transition trs st) as [tr|]; [|done].
  destruct (terminate tr) as [[]|] eqn:Ht; simpl; try done.
  intros _. by exists tr.
Qed.

Lemma follow_metrics trs st i sm :
  metrics (follow trs st i sm) = metrics sm.
Proof.
  unfold follow. destruct (first_transition trs st) as [tr|]; [|done].
  by destruct (default false (terminate tr)).
Qed.

(** When the call gives a response or raises [aiohttp.ClientError],
    [execute_task] appends exactly one record to the metrics of the worker
    that runs it. After a response the record holds the status and the
    elapsed time and no error, and the status is returned; after a
    [ClientError] it holds no status, the elapsed time and the text of the
    error, and [None] is returned. So exactly one of status and error is
    present. Such a failure does not end the worker: resumed from the
    request, the coroutine makes its move, and it has returned after that
    move only if a transition flagged ["terminate"] accepted the result. *)
Lemma execute_task_one_metric
    (e : Env) (w : World) (sm : StateMachine) (i : nat) (t : Task) :
  (let sent := execute_task_send w sm i t in
   let r := session e (now (fst sent)) (snd sent) in
   ∃ w' sm' result m,
     execute_task e w sm i t = (w', sm', result) ∧
     metrics sm' = metrics sm ++ [m] ∧
     Metric.state m = state sm ∧ Metric.task m = name t ∧
     Metric.response_time m = elapsed r ∧
     match outcome r with
     | Response st =>
         Metric.status m = Some st ∧ Metric.error m = None ∧
         result = Some st
     | ClientError msg =>
         Metric.status m = None ∧ Metric.error m = Some msg ∧
         result = None
     end ∧
     (is_Some (Metric.status m) ∧ Metric.error m = None ∨
      Metric.status m = None ∧ is_Some (Metric.error m)) ∧
     state sm' = state sm ∧ pc sm' = pc sm ∧
     credentials sm' = credentials sm) ∧
  (∀ sd j nm req,
     pc sm = Awaiting j nm req →
     states (config w) !! state sm = Some sd →
     ∃ w' sm' m,
       step e w sm = Some (w', sm') ∧
       metrics sm' = metrics sm ++ [m] ∧
       (pc sm' = Returned →
        ∃ tr, first_transition (transitions sd)
                (reply_status (session e (now w) req)) = Some tr ∧
              terminate tr = Some true)).
Proof.
  split.
  - cbn zeta. unfold execute_task.
    destruct (execute_task_send w sm i t) as [w1 req]. cbn [fst snd].
    unfold execute_task_recv.
    destruct (outcome (session e (now w1) req)) as [st|msg];
      eexists _, _, _, _; (split; [reflexivity|]); simpl;
      repeat split; eauto.
  - intros sd j nm req Hpc Hs.
    rewrite (step_Awaiting _ _ _ _ _ _ _ Hpc Hs). cbn zeta.
    set (r := session e (now w) req).
    assert (∃ m, metrics (fst (execute_task_recv sm nm r))
                 = metrics sm ++ [m]) as [m Hm].
    { unfold execute_task_recv. destruct (outcome r); simpl; eauto. }
    eexists _, _, m. split; [reflexivity|]. split.
    + by rewrite follow_metrics.
    + apply follow_Returned.
Qed.

Example refused_login_one_metric :
  (∃ w' sm' result m,
     execute_task (always refused) (initial_world main_config)
       (awaiting "LOGIN" "login" (login_request ∅)) 0 login_task
     = (w', sm', result) ∧
     metrics sm' = [m] ∧
     Metric.status m = None ∧
     Metric.error m = Some "Cannot connect to host" ∧
     Metric.response_time m = 3%N ∧ result = None) ∧
  (∃ w' sm' m,
     step (always refused) (initial_world main_config)
          (awaiting "LOGIN" "login" (login_request ∅)) = Some (w', sm') ∧
     metrics sm' = [m] ∧
     (pc sm' = Returned →
      ∃ tr, first_transition (transitions login_state) None = Some tr ∧
            terminate tr = Some true)).
Proof.
  destruct (execute_task_one_metric (always refused)
              (initial_world main_config)
              (awaiting "LOGIN" "login" (login_request ∅)) 0 login_task)
    as [H1 H2].
  split.
  - destruct H1 as (w' & sm' & result & m & Hx & Hm & _ & _ & Ht & Ho & _).
    exists w', sm', result, m. simpl in Ho.
    destruct Ho as (Hs & He & Hr). by repeat split.
  - apply (H2 login_state 0 "login" (login_request ∅)); reflexivity.
Qed.

(** ** C8: the credential is taken and merged in state ["LOGIN"] *)

Lemma update_empty (d : Body) : update ∅ d = d.
Proof. unfold update. apply (left_id_L ∅ (∪)). Qed.

Lemma execute_task_send_request w sm i t :
  let req := snd (execute_task_send w sm i t) in
  verb req = lower (method t) ∧ req_url req = url t ∧
  ∀ p d, params t = Some p → data p = Some d →
         data (req_params req)
         = Some (update (default ∅ (current_credential sm)) d).
Proof.
  unfold execute_task_send.
  destruct (params t) as [p|] eqn:Hp; simpl.
  - destruct (data p) as [d|] eqn:Hd; simpl.
    + destruct (truthy (current_credential sm)) eqn:Htr; simpl.
      * repeat split. intros p' d' [= <-]. rewrite Hd. by intros [= <-].
      * repeat split. intros p' d' [= <-]. rewrite Hd. intros [= <-].
        f_equal.
        destruct (current_credential sm) as [c|]; simpl in *.
        -- case_bool_decide; [subst c|done]. by rewrite update_empty.
        -- by rewrite update_empty.
    + repeat split. intros p' d' [= <-]. by rewrite Hd.
  - repeat split. done.
Qed.

(** Claim C8. A worker is about to run the task number [i] of state
    ["LOGIN"], its credential queue is [c :: q] and the [running] flag reads
    true. Then, before the request is made, [c] is removed from the queue
    (which is left one shorter) and becomes the current credential; and when
    the task has a [data] dictionary [d], the request carries [d] updated
    with the fields of [c]: a key of [c] has the value [c] gives it, any
    other key the value it has in [d]. *)
Theorem C8_login_takes_and_merges_credential
    (e : Env) (w : World) (sm : StateMachine) (sd : StateDef)
    (i : nat) (t : Task) (c : Credential) (q : list Credential) :
  pc sm = AtFor i → state sm = "LOGIN" → credentials sm = c :: q →
  states (config w) !! "LOGIN" = Some sd → tasks sd !! i = Some t →
  fst (poll e w) = true →
  ∃ w' sm' req,
    step e w sm = Some (w', sm') ∧
    pc sm' = Awaiting i (name t) req ∧
    credentials sm' = q ∧
    S (length (credentials sm')) = length (credentials sm) ∧
    current_credential sm' = Some c ∧
    verb req = lower (method t) ∧ req_url req = url t ∧
    ∀ p d, params t = Some p → data p = Some d →
      ∃ body, data (req_params req) = Some body ∧
        (∀ k v, c !! k = Some v → body !! k = Some v) ∧
        (∀ k, c !! k = None → body !! k = d !! k).
Proof.
  intros Hpc Hst Hq Hs Ht Hr. rewrite <- Hst in Hs.
  rewrite (step_AtFor_task _ _ _ _ _ _ Hpc Hs Ht Hr). cbn zeta.
  assert (take_credential sm =
          {| credentials := q; current_credential := Some c;
             state := state sm; metrics := metrics sm; pc := pc sm |})
    as Htake.
  { unfold take_credential. rewrite Hq. by rewrite bool_decide_eq_true_2. }
  rewrite Htake.
  set (sm1 := {| credentials := q; current_credential := Some c;
                 state := state sm; metrics := metrics sm; pc := pc sm |}).
  destruct (execute_task_send_request (snd (poll e w)) sm1 i t)
    as (Hv & Hu & Hd).
  eexists _, _, _. split; [reflexivity|]. simpl.
  rewrite Hq. repeat split; try done.
  intros p d Hp Hdd. exists (update c d). split; [by apply (Hd p d)|].
  unfold update. split.
  - intros k v Hk. by apply lookup_union_Some_l.
  - intros k Hk. by apply lookup_union_r.
Qed.

Lemma C8_witness :
  ∃ w' sm' req,
    step (always ok_200) (initial_world main_config)
         (at_for "LOGIN" 0 main_credentials) = Some (w', sm') ∧
    pc sm' = Awaiting 0 "login" req ∧
    credentials sm' =
      [credential "user2" "pass2"; credential "user3" "pass3"] ∧
    current_credential sm' = Some (credential "user1" "pass1") ∧
    ∃ body, data (req_params req) = Some body ∧
            body !! "username" = Some "user1" ∧
            body !! "password" = Some "pass1".
Proof.
  destruct (C8_login_takes_and_merges_credential (always ok_200)
              (initial_world main_config) (at_for "LOGIN" 0 main_credentials)
              login_state 0 login_task (credential "user1" "pass1")
              [credential "user2" "pass2"; credential "user3" "pass3"])
    as (w' & sm' & req & Hstep & Hpc & Hq & _ & Hc & _ & _ & Hb);
    try reflexivity.
  exists w', sm', req. repeat split; try done.
  destruct (Hb {| data := Some ∅; kwargs := ∅ |} ∅) as (body & Hd & Hk & _);
    try reflexivity.
  exists body. split; [done|]. split; apply Hk; reflexivity.
Defined.

(** ** Composition of moves *)

Lemma steps_add e n m w sm :
  steps e (n + m) w sm =
    match steps e n w sm with
    | Some (w1, sm1) => steps e m w1 sm1
    | None => None
    end.
Proof.
  revert w sm. induction n as [|n IH]; intros w sm; simpl; [done|].
  destruct (step e w sm) as [[w1 sm1]|]; [apply IH | done].
Qed.

Lemma steps_compose e n m w sm w1 sm1 w2 sm2 :
  steps e n w sm = Some (w1, sm1) → steps e m w1 sm1 = Some (w2, sm2) →
  steps e (n + m) w sm = Some (w2, sm2).
Proof. intros H1 H2. by rewrite steps_add, H1. Qed.

Lemma never_returns_run e w sm :
  never_returns e w sm → ∀ fuel, run e fuel w sm = None.
Proof.
  intros H fuel. revert w sm H.
  induction fuel as [|f IH]; intros w sm H.
  - destruct (H 0) as (w' & sm' & [= <- <-] & Hpc). simpl.
    by destruct (pc sm).
  - destruct (H 0) as (w' & sm' & [= <- <-] & Hpc).
    destruct (H 1) as (w1 & sm1 & H1 & _). simpl in H1.
    destruct (step e w sm) as [[w1' sm1']|] eqn:Hstep; [|done].
    simpl. rewrite Hstep.
    assert (run e f w1' sm1' = None) as ->.
    { apply IH. intros n. destruct (H (S n)) as (w2 & sm2 & H2 & Hpc2).
      simpl in H2. rewrite Hstep in H2. eauto. }
    by destruct (pc sm).
Qed.

Lemma never_returns_after e n w sm w1 sm1 :
  steps e n w sm = Some (w1, sm1) → pc sm1 ≠ Returned →
  never_returns e w1 sm1 →
  ∀ k, (n ≤ k)%nat →
    ∃ w' sm', steps e k w sm = Some (w', sm') ∧ pc sm' ≠ Returned.
Proof.
  intros Hn Hpc Hnr k Hk. replace k with (n + (k - n)) by lia.
  rewrite steps_add, Hn. apply Hnr.
Qed.

(** ** C1: a state without tasks does not end the run *)

Lemma poll_quiet e w :
  sigint e (now w) = false →
  poll e w = (MetricsCollector.running (collector w), tick w).
Proof. unfold poll, deliver. by intros ->. Qed.

Lemma poll_config e w : config (snd (poll e w)) = config w.
Proof. unfold poll, deliver. by destruct (sigint e (now w)). Qed.

Lemma poll_now e w : now (snd (poll e w)) = S (now w).
Proof. unfold poll, deliver. by destruct (sigint e (now w)). Qed.

(** In a state of the graph whose task list is empty the [for] loop has no
    iteration and the [while] loop starts over: two moves bring the worker
    back to where it was, with only the clock advanced. *)
Lemma empty_state_cycle e w sm sd :
  pc sm = AtWhile → states (config w) !! state sm = Some sd →
  tasks sd = [] → MetricsCollector.running (collector w) = true →
  sigint e (now w) = false →
  steps e 2 w sm = Some (tick w, sm).
Proof.
  intros Hpc Hs Ht Hr Hsig. simpl.
  rewrite (step_AtWhile_present _ _ _ _ Hpc Hs), (poll_quiet _ _ Hsig), Hr.
  cbn [fst snd].
  rewrite (step_AtFor_exhausted e (tick w) (set_pc (AtFor 0) sm) sd 0);
    [| done | done | by rewrite Ht].
  destruct sm as [cr cc s ms p]. simpl in *. by subst p.
Qed.

Lemma empty_state_spins e w sm sd :
  pc sm = AtWhile → states (config w) !! state sm = Some sd →
  tasks sd = [] → MetricsCollector.running (collector w) = true →
  (∀ n, sigint e n = false) →
  never_returns e w sm.
Proof.
  intros Hpc Hs Ht Hr Hsig.
  assert (∀ k w, states (config w) !! state sm = Some sd →
                 MetricsCollector.running (collector w) = true →
                 ∃ w', steps e (2 * k) w sm = Some (w', sm) ∧
                       states (config w') !! state sm = Some sd ∧
                       MetricsCollector.running (collector w') = true)
    as Hcyc.
  { induction k as [|k IH]; intros w0 Hs0 Hr0.
    - exists w0. by simpl.
    - destruct (IH (tick w0)) as (w' & Hk & Hs' & Hr'); [done..|].
      exists w'. split; [|done].
      replace (2 * S k) with (2 + 2 * k) by lia.
      eapply steps_compose; [|exact Hk].
      by apply (empty_state_cycle _ _ _ sd). }
  intros n. destruct (Hcyc (n / 2) w Hs Hr) as (w' & Hk & Hs' & Hr').
  pose proof (Nat.div_mod_eq n 2) as Hd.
  pose proof (Nat.mod_upper_bound n 2) as Hb.
  destruct (n mod 2) as [|[|r]] eqn:Hm; [| |lia].
  - exists w', sm. split; [|by rewrite Hpc].
    replace n with (2 * (n / 2)) at 1 by lia. done.
  - exists (tick w'), (set_pc (AtFor 0) sm). split; [|done].
    replace n with (2 * (n / 2) + 1) at 1 by lia.
    eapply steps_compose; [exact Hk|].
    simpl.
    by rewrite (step_AtWhile_present _ _ _ _ Hpc Hs'),
      (poll_quiet _ _ (Hsig _)), Hr'.
Qed.

(** Claim C1, at the scenario of the claim. The session answers 200 and no
    SIGINT arrives. The worker reaches [B] after three moves with the single
    record of status 200 and no error; but [B] is a key of
    [config["states"]], so the [while] test holds again and again: after any
    number of further moves the worker is still in [B] with that one record
    and [run] has not returned, and no amount of fuel lets [run] return. *)
Theorem C1_empty_state_never_returns :
  (∀ n, ∃ w sm,
     steps (always ok_200) (3 + n) (initial_world scenario_config)
           (StateMachine_init scenario_config []) = Some (w, sm) ∧
     state sm = "B" ∧ metrics sm = [metric_a_200] ∧ pc sm ≠ Returned) ∧
  (∀ fuel,
     run (always ok_200) fuel (initial_world scenario_config)
         (StateMachine_init scenario_config []) = None).
Proof.
  set (w0 := initial_world scenario_config).
  set (sm0 := StateMachine_init scenario_config []).
  set (smB := {| credentials := []; current_credential := None;
                 state := "B"; metrics := [metric_a_200]; pc := AtWhile |}).
  set (w3 := {| config := scenario_config;
                collector := MetricsCollector.init; now := 3 |}).
  assert (steps (always ok_200) 3 w0 sm0 = Some (w3, smB)) as H3
    by reflexivity.
  assert (never_returns (always ok_200) w3 smB) as Hspin.
  { by apply (empty_state_spins _ _ _ sink). }
  assert (∀ n w sm, steps (always ok_200) n w3 smB = Some (w, sm) →
                    state sm = "B" ∧ metrics sm = [metric_a_200]) as Hinv.
  { intros n.
    assert (∀ m w (sm : StateMachine),
              state sm = "B" → metrics sm = [metric_a_200] →
              pc sm = AtWhile ∨ pc sm = AtFor 0 ∨ pc sm = Returned →
              states (config w) !! "B" = Some sink →
              ∀ w' sm', steps (always ok_200) m w sm = Some (w', sm') →
              state sm' = "B" ∧ metrics sm' = [metric_a_200]) as Hgen.
    { induction m as [|m IH]; intros w sm Hst Hm Hpc Hs w' sm'.
      - by intros [= <- <-].
      - simpl. destruct (step (always ok_200) w sm) as [[w1 sm1]|] eqn:Hstep;
          [|done].
        rewrite <- Hst in Hs.
        destruct Hpc as [Hpc|[Hpc|Hpc]].
        + rewrite (step_AtWhile_present _ _ _ _ Hpc Hs) in Hstep.
          injection Hstep as <- <-. apply IH; [done | done | |].
          * simpl.
            match goal with |- context [if ?b then _ else _] => destruct b end;
              auto.
          * rewrite <- Hst, <- Hs.
            by rewrite <- (poll_config (always ok_200) w).
        + rewrite (step_AtFor_exhausted _ _ _ _ _ Hpc Hs) in Hstep; [|done].
          injection Hstep as <- <-. apply IH; try done; auto.
          by rewrite <- Hst.
        + by rewrite (step_Returned _ _ _ Hpc) in Hstep. }
    intros w sm. apply Hgen; auto. }
  split.
  - intros n. rewrite steps_add, H3.
    destruct (Hspin n) as (w & sm & Hn & Hpc).
    exists w, sm. split; [done|].
    destruct (Hinv n w sm Hn). by repeat split.
  - apply never_returns_run. intros n.
    destruct (le_lt_dec 3 n) as [Hle|Hlt].
    + by apply (never_returns_after _ 3 _ _ w3 smB).
    + destruct n as [|[|[|n]]]; [| | |lia];
        eexists _, _; (split; [reflexivity|done]).
Qed.

(** ** C2: what [execute_task] does to the shared configuration *)

Lemma store_task_lookup s i t cfg :
  states (store_task s i t cfg) !! s =
    (fun sd => {| tasks := <[i := t]> (tasks sd);
                  transitions := transitions sd |}) <$> states cfg !! s.
Proof. unfold store_task. cbn [states]. apply lookup_alter_eq. Qed.

Lemma store_task_lookup_ne s s' i t cfg :
  s ≠ s' → states (store_task s i t cfg) !! s' = states cfg !! s'.
Proof.
  intros H. unfold store_task. cbn [states]. by apply lookup_alter_ne.
Qed.

(** The part of the graph that [execute_task] leaves alone: the set of
    states, their transitions, and the name, method and URL of every task.
    The task it runs is replaced by a task [t'] that may differ from it in
    its [data] dictionary only. *)
Lemma execute_task_send_frame w sm i t sd :
  states (config w) !! state sm = Some sd → tasks sd !! i = Some t →
  let w1 := fst (execute_task_send w sm i t) in
  now w1 = now w ∧ collector w1 = collector w ∧
  initial_state (config w1) = initial_state (config w) ∧
  (∀ s, s ≠ state sm → states (config w1) !! s = states (config w) !! s) ∧
  ∃ t', name t' = name t ∧ method t' = method t ∧ url t' = url t ∧
        states (config w1) !! state sm =
          Some {| tasks := <[i := t']> (tasks sd);
                  transitions := transitions sd |}.
Proof.
  intros Hs Ht. unfold execute_task_send.
  assert (Some sd = Some {| tasks := <[i := t]> (tasks sd);
                            transitions := transitions sd |}) as Hid.
  { rewrite (list_insert_id _ _ _ Ht). by destruct sd. }
  destruct (data (default {| data := None; kwargs := ∅ |} (params t)))
    as [d|]; [destruct (truthy (current_credential sm))|]; simpl.
  - repeat split; try done.
    + intros s Hne. by apply store_task_lookup_ne.
    + exists {| name := name t; method := method t; url := url t;
                params :=
                  Some {| data :=
                            Some (update (default ∅ (current_credential sm))
                                         d);
                          kwargs :=
                            kwargs (default {| data := None; kwargs := ∅ |}
                                            (params t)) |} |}.
      by rewrite lookup_alter_eq, Hs.
  - repeat split; try done. exists t. by rewrite Hs.
  - repeat split; try done. exists t. by rewrite Hs.
Qed.

(** Claim C2, at [main]'s own configuration. The first worker takes the
    credential of [user1] and runs the task [login]. After its request has
    left, the task stored in the shared graph is no longer the declared
    one: its [data] dictionary, declared empty, now holds the credential.
    A later worker that holds no credential at all then sends the
    credential of [user1] with its own request. *)
Theorem C2_execute_task_rewrites_shared_task :
  ∃ w sm t',
    steps (always ok_200) 2 (initial_world main_config)
          (StateMachine_init main_config main_credentials) = Some (w, sm) ∧
    (states (config w) !! "LOGIN") ≫= (fun sd => tasks sd !! 0) = Some t' ∧
    (states main_config !! "LOGIN") ≫= (fun sd => tasks sd !! 0)
      = Some login_task ∧
    params login_task ≫= data = Some ∅ ∧
    params t' ≫= data = Some (credential "user1" "pass1") ∧
    t' ≠ login_task ∧
    ∃ w2 sm2,
      step (always ok_200) w (at_for "LOGIN" 0 []) = Some (w2, sm2) ∧
      current_credential sm2 = None ∧
      pc sm2 = Awaiting 0 "login"
                 (login_request (credential "user1" "pass1")).
Proof.
  eexists _, _, _. split; [reflexivity|].
  split; [reflexivity|]. split; [reflexivity|]. split; [reflexivity|].
  split; [reflexivity|]. split.
  - intros H.
    apply (f_equal (fun t => p ← params t; d ← data p;
                             (d : Body) !! "username")) in H.
    vm_compute in H. discriminate H.
  - eexists _, _. split; [reflexivity|]. split; reflexivity.
Qed.

(** ** C6: one metric per executed task, and the exceptions that leave
       none *)

(** Without exceptions of other classes the moves are those of [step]. *)
Lemma step_exn_no_exception e w sm :
  step_exn e no_exception w sm = goes (step e w sm).
Proof.
  unfold step_exn. destruct (pc sm) as [|i|i nm req|]; try done.
  - destruct (states (config w) !! state sm ≫= _); [|done].
    destruct (poll e w) as [r w1]. simpl. by rewrite andb_false_r.
  - simpl. by destruct (states (config w) !! state sm).
Qed.

(** Claim C6 fails for the exceptions that are not [aiohttp.ClientError].
    A worker is about to run the task number [i] of its state and the
    [running] flag is read true. If the session has no attribute of the
    lower-cased method name, [run] is left by [AttributeError] at once: no
    request is made and no record is appended. If the request is made and
    is left by an exception [exn] of another class than
    [aiohttp.ClientError], [run] is left by [exn]: the worker holds the
    records it held before the task, none for this execution, and it makes
    no further move. *)
Theorem C6_uncaught_exception_ends_the_worker
    (e : Env) (u : Uncaught) (w : World) (sm : StateMachine)
    (sd : StateDef) (i : nat) (t : Task) (fuel : nat) :
  pc sm = AtFor i →
  states (config w) !! state sm = Some sd →
  tasks sd !! i = Some t →
  fst (poll e w) = true →
  let w1 := snd (poll e w) in
  let sm1 := take_credential sm in
  let sent := execute_task_send w1 sm1 i t in
  metrics sm1 = metrics sm ∧
  (no_attribute u (lower (method t)) = true →
   run_exn e u (S fuel) w sm = Some (w1, sm1, Some "AttributeError")) ∧
  (∀ exn,
     no_attribute u (lower (method t)) = false →
     call_raises u (now (fst sent)) (snd sent) = Some exn →
     ∃ sm',
       run_exn e u (S (S fuel)) w sm
         = Some (tick (fst sent), sm', Some exn) ∧
       metrics sm' = metrics sm ∧ state sm' = state sm ∧
       pc sm' = Awaiting i (name t) (snd sent)).
Proof.
  intros Hpc Hs Ht Hpoll w1 sm1 sent.
  destruct (take_credential_frame sm) as (Hcs & Hcm & Hcp).
  assert (step_exn e u w sm
          = if no_attribute u (lower (method t))
            then Some (Raises "AttributeError" w1 sm1)
            else goes (step e w sm)) as Hx.
  { unfold step_exn. rewrite Hpc, Hs. cbn [mbind option_bind]. rewrite Ht.
    subst w1. destruct (poll e w) as [r w']. cbn [fst snd] in *.
    by rewrite Hpoll. }
  split; [exact Hcm|]. split.
  - intros Hno. cbn [run_exn]. by rewrite Hpc, Hx, Hno.
  - intros exn Hno Hraise.
    pose proof (step_AtFor_task e w sm sd i t Hpc Hs Ht Hpoll) as Hstep.
    cbn zeta in Hstep. fold w1 sm1 sent in Hstep.
    destruct (execute_task_send_frame w1 sm1 i t sd)
      as (_ & _ & _ & _ & t' & _ & _ & _ & Hs1);
      [subst w1 sm1; by rewrite poll_config, Hcs|done|].
    cbn zeta in Hs1. fold sent in Hs1.
    exists (set_pc (Awaiting i (name t) (snd sent)) sm1).
    split; [|by repeat split].
    cbn [run_exn]. rewrite Hpc, Hx, Hno, Hstep. cbn [goes].
    change (pc (set_pc (Awaiting i (name t) (snd sent)) sm1))
      with (Awaiting i (name t) (snd sent)).
    cbv beta iota. unfold step_exn.
    change (pc (set_pc (Awaiting i (name t) (snd sent)) sm1))
      with (Awaiting i (name t) (snd sent)).
    cbv beta iota.
    change (state (set_pc (Awaiting i (name t) (snd sent)) sm1))
      with (state sm1).
    by rewrite Hs1, Hraise.
Qed.

(** The worker of [main]'s configuration whose login times out, and a
    worker whose task names the method ["FETCH"]. *)
Lemma C6_witness :
  (∃ w' sm',
     run_exn (always ok_200) login_times_out 2 (initial_world main_config)
             (at_for "LOGIN" 0 main_credentials)
     = Some (w', sm', Some "TimeoutError") ∧
     metrics sm' = [] ∧ state sm' = "LOGIN") ∧
  (∃ w' sm',
     run_exn (always ok_200) no_fetch_attribute 1
             (initial_world typo_config) (at_for "A" 0 [])
     = Some (w', sm', Some "AttributeError") ∧
     metrics sm' = []).
Proof.
  split.
  - destruct (C6_uncaught_exception_ends_the_worker (always ok_200)
                login_times_out (initial_world main_config)
                (at_for "LOGIN" 0 main_credentials) login_state 0
                login_task 0 eq_refl eq_refl eq_refl eq_refl)
      as (_ & _ & Hcall).
    destruct (Hcall "TimeoutError" eq_refl eq_refl)
      as (sm' & Hrun & Hm & Hst & _).
    eexists _, sm'. split; [exact Hrun|]. by split.
  - destruct (C6_uncaught_exception_ends_the_worker (always ok_200)
                no_fetch_attribute (initial_world typo_config)
                (at_for "A" 0 []) {| tasks := [typo_task];
                                     transitions := [] |} 0
                typo_task 0 eq_refl eq_refl eq_refl eq_refl)
      as (Hm & Hattr & _).
    eexists _, _. split; [exact (Hattr eq_refl)|]. exact Hm.
Defined.

(** From the start of [run] in [main]'s configuration: the login that times
    out leaves no record and ends the worker with an exception, where the
    login that is refused leaves one record and ends it by the
    ["terminate"] transition to ["LOGIN_FAILED"]. *)
Example timeout_and_refusal :
  (∃ w sm,
     run_exn (always ok_200) login_times_out 3 (initial_world main_config)
             (StateMachine_init main_config main_credentials)
     = Some (w, sm, Some "TimeoutError") ∧
     metrics sm = [] ∧ length (credentials sm) = 2) ∧
  (∃ w sm m,
     run_exn (always refused) no_exception 3 (initial_world main_config)
             (StateMachine_init main_config main_credentials)
     = Some (w, sm, None) ∧
     metrics sm = [m] ∧ Metric.status m = None ∧
     Metric.error m = Some "Cannot connect to host" ∧
     state sm = "LOGIN_FAILED").
Proof.
  split.
  - vm_compute. eexists _, _. repeat split.
  - vm_compute. eexists _, _, _. repeat split.
Qed.

(** ** C5: a state none of whose transitions matches is run again *)

Lemma poll_stopped e w :
  MetricsCollector.running (collector w) = false →
  fst (poll e w) = false ∧
  MetricsCollector.running (collector (snd (poll e w))) = false.
Proof.
  intros H. unfold poll, deliver. by destruct (sigint e (now w)).
Qed.

Lemma poll_sigint e w :
  sigint e (now w) = true →
  fst (poll e w) = false ∧
  MetricsCollector.running (collector (snd (poll e w))) = false.
Proof. intros H. unfold poll, deliver. by rewrite H. Qed.

(** SIGINT in the middle of a pass: the [for] loop is left before the next
    task, the [while] loop at its next test, and [run] returns without
    another request. *)
Lemma sigint_inside_for_loop e w sm sd i t :
  pc sm = AtFor i → states (config w) !! state sm = Some sd →
  tasks sd !! i = Some t → sigint e (now w) = true →
  ∃ w', steps e 2 w sm = Some (w', set_pc Returned sm) ∧
        config w' = config w.
Proof.
  intros Hpc Hs Ht Hsig.
  destruct (poll_sigint e w Hsig) as [Hp1 Hr1].
  destruct (poll_stopped e (snd (poll e w)) Hr1) as [Hp2 _].
  exists (snd (poll e (snd (poll e w)))). split.
  - cbn [steps]. rewrite (step_AtFor_stopped _ _ _ _ _ _ Hpc Hs Ht Hp1).
    rewrite (step_AtWhile_present e _ (set_pc AtWhile sm) sd);
      [|done|by rewrite poll_config].
    by rewrite Hp2.
  - by rewrite !poll_config.
Qed.

Lemma execute_task_recv_metric sm nm r :
  ∃ m, metrics (fst (execute_task_recv sm nm r)) = metrics sm ++ [m] ∧
       Metric.task m = nm ∧ Metric.state m = state sm.
Proof.
  unfold execute_task_recv. destruct (outcome r); simpl; eauto.
Qed.

Lemma no_match_within_le e trs b b' w sm :
  b' ≤ b → no_match_within e trs b w sm → no_match_within e trs b' w sm.
Proof.
  intros Hle H j w1 sm1 i nm req Hj. apply H. lia.
Qed.

Lemma no_match_within_shift e trs a b w sm w2 sm2 :
  steps e a w sm = Some (w2, sm2) →
  no_match_within e trs (a + b) w sm → no_match_within e trs b w2 sm2.
Proof.
  intros Ha H j w1 sm1 i nm req Hj Hs.
  apply (H (a + j)); [lia|]. by rewrite steps_add, Ha.
Qed.

Section NoProgress.
Variable e : Env.
Variable trs : list Transition.

(** The [for] loop from its task number [i] on, [k] tasks being left, when
    no reply taken on the way is matched by a transition: every task is
    executed, none changes the state, and the loop is left by
    exhaustion. *)
Lemma for_loop_no_match (k : nat) :
  ∀ w sm sd i,
    pc sm = AtFor i →
    states (config w) !! state sm = Some sd → transitions sd = trs →
    length (tasks sd) = i + k →
    MetricsCollector.running (collector w) = true →
    (∀ n, n < now w + 2 * k → sigint e n = false) →
    no_match_within e trs (2 * k + 1) w sm →
    ∃ w' sm' sd',
      steps e (2 * k + 1) w sm = Some (w', sm') ∧
      pc sm' = AtWhile ∧ state sm' = state sm ∧
      Metric.task <$> metrics sm'
        = (Metric.task <$> metrics sm) ++ (name <$> drop i (tasks sd)) ∧
      states (config w') !! state sm = Some sd' ∧
      transitions sd' = trs ∧ name <$> tasks sd' = name <$> tasks sd ∧
      MetricsCollector.running (collector w') = true ∧
      now w' = now w + 2 * k.
Proof.
  induction k as [|k IH]; intros w sm sd i Hpc Hs Htr Hlen Hrun Hsig Hno.
  - assert (tasks sd !! i = None) as Hnone
      by (apply lookup_ge_None; lia).
    exists w, (set_pc AtWhile sm), sd. simpl.
    rewrite (step_AtFor_exhausted _ _ _ _ _ Hpc Hs Hnone).
    rewrite drop_ge by lia. simpl. rewrite app_nil_r.
    repeat split; try done.
  - destruct (lookup_lt_is_Some_2 (tasks sd) i) as [t Ht]; [lia|].
    assert (poll e w = (true, tick w)) as Hpoll.
    { rewrite poll_quiet by (apply Hsig; lia). by rewrite Hrun. }
    pose proof (step_AtFor_task e w sm sd i t Hpc Hs Ht) as Hstep1.
    rewrite Hpoll in Hstep1. cbn [fst snd] in Hstep1.
    specialize (Hstep1 eq_refl). cbn zeta in Hstep1.
    destruct (take_credential_frame sm) as (Hcs & Hcm & Hcp).
    set (sm1 := take_credential sm) in *.
    destruct (execute_task_send_frame (tick w) sm1 i t sd)
      as (Hnow & Hcol & _ & _ & t' & Hname & _ & _ & Hs1);
      [by rewrite Hcs | done |].
    cbn zeta in Hnow, Hcol, Hs1. rewrite Hcs in Hs1.
    destruct (execute_task_send (tick w) sm1 i t) as [w1 req].
    cbn [fst snd] in *.
    set (sm2 := set_pc (Awaiting i (name t) req) sm1) in *.
    set (sd1 := {| tasks := <[i := t']> (tasks sd);
                   transitions := transitions sd |}) in *.
    assert (state sm2 = state sm) as Hst2 by done.
    assert (first_transition trs
              (reply_status (session e (now w1) req)) = None) as Hnone.
    { apply (Hno 1 w1 sm2 i (name t) req); [lia| |done].
      cbn [steps]. by rewrite Hstep1. }
    pose proof (step_Awaiting e w1 sm2 sd1 i (name t) req eq_refl)
      as Hstep2.
    rewrite Hst2 in Hstep2. specialize (Hstep2 Hs1).
    cbn zeta in Hstep2. cbn [transitions sd1] in Hstep2.
    rewrite Htr in Hstep2. unfold follow in Hstep2.
    rewrite Hnone in Hstep2.
    destruct (execute_task_recv_metric sm2 (name t)
                (session e (now w1) req)) as (m & Hm & Hmt & _).
    destruct (execute_task_recv_frame sm2 (name t)
                (session e (now w1) req)) as (Hst3 & _).
    cbn zeta in Hst3.
    set (sm3 := fst (execute_task_recv sm2 (name t)
                       (session e (now w1) req))) in *.
    assert (steps e 2 w sm = Some (tick w1, set_pc (AtFor (S i)) sm3))
      as H2 by (cbn [steps]; by rewrite Hstep1, Hstep2).
    destruct (IH (tick w1) (set_pc (AtFor (S i)) sm3) sd1 (S i))
      as (w' & sm' & sd' & Hk & Hpc' & Hst' & Hmet' & Hs' & Htr' & Hnm'
          & Hrun' & Hnow'); try done.
    + simpl. by rewrite Hst3, Hst2.
    + simpl. rewrite length_insert. lia.
    + simpl. by rewrite Hcol.
    + intros n Hn. apply Hsig. simpl in Hn. rewrite Hnow in Hn.
      simpl in Hn. lia.
    + apply (no_match_within_shift e trs 2 _ w sm); [done|].
      eapply no_match_within_le; [|exact Hno]. lia.
    + exists w', sm', sd'.
      split.
      { replace (2 * S k + 1) with (2 + (2 * k + 1)) by lia.
        eapply steps_compose; [exact H2|exact Hk]. }
      split; [done|].
      split; [by rewrite Hst'; simpl; rewrite Hst3, Hst2|].
      split.
      { rewrite Hmet'. simpl. rewrite Hm, fmap_app. simpl.
        rewrite Hmt, Hcm. rewrite (drop_S _ _ _ Ht).
        rewrite drop_insert_lt by lia.
        by rewrite <- app_assoc. }
      split; [by simpl in Hs'; rewrite Hst3, Hst2 in Hs'|].
      split; [done|].
      split.
      { rewrite Hnm'. simpl. rewrite list_fmap_insert.
        apply list_insert_id. by rewrite list_lookup_fmap, Ht, Hname. }
      split; [done|].
      rewrite Hnow'. simpl. rewrite Hnow. simpl. lia.
Qed.
End NoProgress.

Section NoProgressPasses.
Variable e : Env.
Variable trs : list Transition.
Variable names : list string.

(** One pass of the [while] loop over a state with transitions [trs] and
    tasks named [names]. *)
Lemma pass_no_match w sm sd :
  pc sm = AtWhile →
  states (config w) !! state sm = Some sd → transitions sd = trs →
  name <$> tasks sd = names →
  MetricsCollector.running (collector w) = true →
  (∀ n, n < now w + (2 * length names + 1) → sigint e n = false) →
  no_match_within e trs (2 * length names + 2) w sm →
  ∃ w' sm' sd',
    steps e (2 * length names + 2) w sm = Some (w', sm') ∧
    pc sm' = AtWhile ∧ state sm' = state sm ∧
    Metric.task <$> metrics sm' = (Metric.task <$> metrics sm) ++ names ∧
    states (config w') !! state sm' = Some sd' ∧
    transitions sd' = trs ∧ name <$> tasks sd' = names ∧
    MetricsCollector.running (collector w') = true ∧
    now w' = now w + (2 * length names + 1).
Proof.
  intros Hpc Hs Htr Hnm Hrun Hsig Hno.
  assert (length (tasks sd) = length names) as Hlen
    by (by rewrite <- Hnm, length_fmap).
  assert (step e w sm = Some (tick w, set_pc (AtFor 0) sm)) as Hstep.
  { rewrite (step_AtWhile_present _ _ _ _ Hpc Hs).
    rewrite poll_quiet by (apply Hsig; lia). by rewrite Hrun. }
  destruct (for_loop_no_match e trs (length names) (tick w)
              (set_pc (AtFor 0) sm) sd 0)
    as (w' & sm' & sd' & Hk & Hpc' & Hst' & Hmet' & Hs' & Htr' & Hnm'
        & Hrun' & Hnow'); try done.
  { intros n Hn. apply Hsig. simpl in Hn. lia. }
  { apply (no_match_within_shift e trs 1 _ w sm).
    - cbn [steps]. by rewrite Hstep.
    - eapply no_match_within_le; [|exact Hno]. lia. }
  exists w', sm', sd'. simpl in Hst', Hmet', Hs', Hnow'.
  split.
  { replace (2 * length names + 2) with (1 + (2 * length names + 1))
      by lia.
    eapply steps_compose; [|exact Hk]. simpl. by rewrite Hstep. }
  rewrite Hst'. rewrite Hmet', Hnm', Hnm. rewrite drop_0, Hnm.
  repeat split; try done. lia.
Qed.

(** [m] passes in a row. *)
Lemma passes_no_match (m : nat) :
  ∀ w sm sd,
    pc sm = AtWhile →
    states (config w) !! state sm = Some sd → transitions sd = trs →
    name <$> tasks sd = names →
    MetricsCollector.running (collector w) = true →
    (∀ n, n < now w + m * (2 * length names + 1) → sigint e n = false) →
    no_match_within e trs (m * (2 * length names + 2)) w sm →
    ∃ w' sm' sd',
      steps e (m * (2 * length names + 2)) w sm = Some (w', sm') ∧
      pc sm' = AtWhile ∧ state sm' = state sm ∧
      Metric.task <$> metrics sm'
        = (Metric.task <$> metrics sm) ++ concat (replicate m names) ∧
      states (config w') !! state sm' = Some sd' ∧
      transitions sd' = trs ∧ name <$> tasks sd' = names ∧
      MetricsCollector.running (collector w') = true ∧
      now w' = now w + m * (2 * length names + 1).
Proof.
  induction m as [|m IH]; intros w sm sd Hpc Hs Htr Hnm Hrun Hsig Hno.
  - exists w, sm, sd. simpl. rewrite app_nil_r. repeat split; try done.
  - destruct (pass_no_match w sm sd)
      as (w1 & sm1 & sd1 & Hk1 & Hpc1 & Hst1 & Hmet1 & Hs1 & Htr1 & Hnm1
          & Hrun1 & Hnow1); try done.
    { intros n Hn. apply Hsig. lia. }
    { eapply no_match_within_le; [|exact Hno]. lia. }
    destruct (IH w1 sm1 sd1)
      as (w2 & sm2 & sd2 & Hk2 & Hpc2 & Hst2 & Hmet2 & Hs2 & Htr2 & Hnm2
          & Hrun2 & Hnow2); try done.
    { intros n Hn. apply Hsig. rewrite Hnow1 in Hn. lia. }
    { apply (no_match_within_shift e trs (2 * length names + 2) _ w sm);
        [done|].
      eapply no_match_within_le; [|exact Hno]. lia. }
    exists w2, sm2, sd2.
    split.
    { replace (S m * (2 * length names + 2))
        with ((2 * length names + 2) + m * (2 * length names + 2))
        by lia.
      eapply steps_compose; [exact Hk1 | exact Hk2]. }
    split; [done|]. split; [congruence|].
    split.
    { rewrite Hmet2, Hmet1. simpl. by rewrite <- app_assoc. }
    split; [done|]. split; [done|]. split; [done|]. split; [done|].
    rewrite Hnow2, Hnow1. lia.
Qed.
End NoProgressPasses.

(** Claim C5. The worker is at the head of its [while] loop in a state of
    the graph and the [running] flag is true. If no reply the worker takes
    during [m] passes is matched by a transition of the state, whatever the
    session would answer to other requests or at other times, then each
    pass runs every task of the state in order and leaves the worker in the
    same state at the head of the loop: after [m] passes the task names
    recorded are [m] copies of the state's whole task list. This goes on for
    as long as no SIGINT is delivered; once the flag is read false at the
    head of the loop, [run] returns. *)
Theorem C5_no_progress_loop
    (e : Env) (w : World) (sm : StateMachine) (sd : StateDef) (m : nat) :
  let k := length (tasks sd) in
  pc sm = AtWhile →
  states (config w) !! state sm = Some sd →
  MetricsCollector.running (collector w) = true →
  (∀ n, n < now w + m * (2 * k + 1) → sigint e n = false) →
  (∀ j w1 sm1 i nm req,
     j < m * (2 * k + 2) → steps e j w sm = Some (w1, sm1) →
     pc sm1 = Awaiting i nm req →
     first_transition (transitions sd)
       (reply_status (session e (now w1) req)) = None) →
  ∃ w' sm',
    steps e (m * (2 * k + 2)) w sm = Some (w', sm') ∧
    state sm' = state sm ∧ pc sm' = AtWhile ∧
    Metric.task <$> metrics sm'
      = (Metric.task <$> metrics sm)
        ++ concat (replicate m (name <$> tasks sd)) ∧
    MetricsCollector.running (collector w') = true ∧
    now w' = now w + m * (2 * k + 1) ∧
    (sigint e (now w') = true →
     ∃ w'', step e w' sm' = Some (w'', set_pc Returned sm') ∧
            MetricsCollector.running (collector w'') = false).
Proof.
  intros k Hpc Hs Hrun Hsig Hno.
  assert (k = length (name <$> tasks sd)) as Hk
    by (by rewrite length_fmap).
  destruct (passes_no_match e (transitions sd) (name <$> tasks sd) m
              w sm sd)
    as (w' & sm' & sd' & Hst & Hpc' & Hs' & Hmet & Hl' & _ & _ & Hrun'
        & Hnow'); try done.
  { by rewrite <- Hk. }
  { rewrite <- Hk. exact Hno. }
  rewrite <- Hk in Hst, Hnow'.
  exists w', sm'. repeat split; try done.
  intros Hint. eexists.
  rewrite (step_AtWhile_present _ _ _ _ Hpc' Hl').
  unfold poll, deliver. rewrite Hint. simpl. done.
Qed.

(** The ping is answered with 503 while any other URL would be answered
    with 200, which the transition of the state wants: the worker polls
    twice over and returns when SIGINT arrives. *)
Lemma C5_witness :
  ∃ w' sm',
    steps (ping_unavailable 6) 8 (initial_world polling_config)
          (StateMachine_init polling_config []) = Some (w', sm') ∧
    state sm' = "P" ∧ pc sm' = AtWhile ∧
    Metric.task <$> metrics sm' = ["ping"; "ping"] ∧
    ∃ w'', step (ping_unavailable 6) w' sm'
             = Some (w'', set_pc Returned sm') ∧
           MetricsCollector.running (collector w'') = false.
Proof.
  destruct (C5_no_progress_loop (ping_unavailable 6)
              (initial_world polling_config)
              (StateMachine_init polling_config []) polling_state 2)
    as (w' & sm' & H1 & H2 & H3 & H4 & H5 & H6 & H7).
  - reflexivity.
  - reflexivity.
  - reflexivity.
  - intros n Hn. cbn [ping_unavailable sigint]. apply Nat.leb_gt.
    simpl in Hn. lia.
  - intros j w1 sm1 i nm req Hj Hs Hp.
    do 8 (destruct j as [|j];
          [vm_compute in Hs; injection Hs as <- <-;
           first [discriminate Hp | injection Hp as <- <- <-; reflexivity]
          |]).
    simpl in Hj. lia.
  - exists w', sm'. repeat split; try done.
    apply H7. rewrite H6. reflexivity.
Defined.

(** ** C7: what a round of [main] harvests *)

Lemma poll_collector_metrics e w :
  MetricsCollector.metrics (collector (snd (poll e w)))
  = MetricsCollector.metrics (collector w).
Proof. unfold poll, deliver. by destruct (sigint e (now w)). Qed.

Lemma execute_task_send_collector w sm i t :
  collector (fst (execute_task_send w sm i t)) = collector w.
Proof.
  unfold execute_task_send.
  destruct (data _); [destruct (truthy _)|]; done.
Qed.

(** No move of a worker touches the records of the collector. *)
Lemma step_collector_metrics e w sm w' sm' :
  step e w sm = Some (w', sm') →
  MetricsCollector.metrics (collector w')
  = MetricsCollector.metrics (collector w).
Proof.
  unfold step. destruct (pc sm) as [|i|i nm req|].
  - destruct (states (config w) !! state sm); [|by intros [= <- <-]].
    pose proof (poll_collector_metrics e w) as Hp.
    destruct (poll e w) as [r w1]. by intros [= <- <-].
  - destruct (states (config w) !! state sm) as [sd|]; [|done].
    cbn [mbind option_bind].
    destruct (tasks sd !! i) as [t|]; [|by intros [= <- <-]].
    pose proof (poll_collector_metrics e w) as Hp.
    destruct (poll e w) as [r w1]. cbn [snd] in Hp.
    destruct r; [|by intros [= <- <-]].
    pose proof (execute_task_send_collector w1 (take_credential sm) i t)
      as Hc.
    destruct (execute_task_send w1 (take_credential sm) i t) as [w2 rq].
    cbn [fst] in Hc. intros [= <- <-]. by rewrite Hc.
  - destruct (states (config w) !! state sm) as [sd|]; [|done].
    cbn [mbind option_bind].
    destruct (execute_task_recv sm nm (session e (now w) req)).
    by intros [= <- <-].
  - done.
Qed.

Lemma step_worker_collector_metrics e sys j :
  MetricsCollector.metrics (collector (world (step_worker e sys j)))
  = MetricsCollector.metrics (collector (world sys)).
Proof.
  unfold step_worker. destruct (workers sys !! j) as [sm|]; [|done].
  destruct (step e (world sys) sm) as [[w1 sm1]|] eqn:Hstep; [|done].
  simpl. by apply (step_collector_metrics _ _ _ _ _ Hstep).
Qed.

Lemma step_worker_length e sys j :
  length (workers (step_worker e sys j)) = length (workers sys).
Proof.
  unfold step_worker. destruct (workers sys !! j) as [sm|]; [|done].
  destruct (step e (world sys) sm) as [[w1 sm1]|]; [|done].
  simpl. apply length_insert.
Qed.

(** A worker that has returned stays as it is, whatever moves. *)
Lemma step_worker_finished e sys j i sm :
  workers sys !! i = Some sm → pc sm = Returned →
  workers (step_worker e sys j) !! i = Some sm.
Proof.
  intros Hi Hpc. unfold step_worker.
  destruct (workers sys !! j) as [smj|] eqn:Hj; [|done].
  destruct (step e (world sys) smj) as [[w1 sm1]|] eqn:Hstep; [|done].
  simpl. destruct (decide (j = i)) as [->|Hne].
  - rewrite Hi in Hj. injection Hj as <-.
    by rewrite (step_Returned _ _ _ Hpc) in Hstep.
  - by rewrite list_lookup_insert_ne.
Qed.

Lemma schedule_collector_metrics e sched sys :
  MetricsCollector.metrics (collector (world (schedule e sched sys)))
  = MetricsCollector.metrics (collector (world sys)).
Proof.
  unfold schedule. revert sys.
  induction sched as [|j sched IH]; intros sys; simpl; [done|].
  by rewrite IH, step_worker_collector_metrics.
Qed.

Lemma schedule_length e sched sys :
  length (workers (schedule e sched sys)) = length (workers sys).
Proof.
  unfold schedule. revert sys.
  induction sched as [|j sched IH]; intros sys; simpl; [done|].
  by rewrite IH, step_worker_length.
Qed.

Lemma schedule_finished e sched sys i sm :
  workers sys !! i = Some sm → pc sm = Returned →
  workers (schedule e sched sys) !! i = Some sm.
Proof.
  unfold schedule. revert sys.
  induction sched as [|j sched IH]; intros sys Hi Hpc; simpl; [done|].
  apply IH; [|done]. by apply step_worker_finished.
Qed.

Lemma harvest_metrics population c :
  MetricsCollector.metrics (harvest population c)
  = MetricsCollector.metrics c ++ concat (metrics <$> population).
Proof.
  unfold harvest. revert c.
  induction population as [|sm population IH]; intros c; simpl.
  - by rewrite app_nil_r.
  - rewrite IH. simpl. by rewrite <- app_assoc.
Qed.

Lemma harvest_running population c :
  MetricsCollector.running (harvest population c)
  = MetricsCollector.running c.
Proof.
  unfold harvest. revert c.
  induction population as [|sm population IH]; intros c; simpl; [done|].
  by rewrite IH.
Qed.

Lemma length_spawn cfg pool : length (spawn cfg pool) = length pool.
Proof. unfold spawn. apply length_replicate. Qed.

(** One round: the population harvested is the whole population created by
    the round, as it stands when [main] is resumed. *)
Lemma round_spec e pool sched sys sys' base population :
  round e pool sched sys = Some (sys', (base, population)) →
  base = length (workers sys) ∧
  population = drop base (workers sys') ∧
  length (workers sys') = base + length pool ∧
  existsb finished population = true ∧
  MetricsCollector.metrics (collector (world sys'))
    = MetricsCollector.metrics (collector (world sys))
      ++ concat (metrics <$> population) ∧
  (∀ i sm, workers sys !! i = Some sm → pc sm = Returned →
           workers sys' !! i = Some sm).
Proof.
  unfold round.
  set (sys1 := {| world := world sys;
                  workers := workers sys ++ spawn (config (world sys)) pool |}).
  destruct (existsb finished
              (drop (length (workers sys))
                    (workers (schedule e sched sys1)))) eqn:Hex; [|done].
  intros [= <- <- <-]. simpl.
  split; [done|]. split; [done|].
  split. { rewrite schedule_length. simpl.
           by rewrite length_app, length_spawn. }
  split; [done|].
  split. { by rewrite harvest_metrics, schedule_collector_metrics. }
  intros i sm Hi Hpc. apply schedule_finished; [|done].
  simpl. by apply lookup_app_l_Some.
Qed.

Lemma main_loop_spec e pool scheds :
  ∀ sys sys' log,
    main_loop e pool scheds sys = Some (sys', log) →
    MetricsCollector.metrics (collector (world sys'))
      = MetricsCollector.metrics (collector (world sys))
        ++ concat (metrics <$> concat (snd <$> log)) ∧
    length (workers sys') = length (workers sys) + length log * length pool ∧
    (∀ i sm, workers sys !! i = Some sm → pc sm = Returned →
             workers sys' !! i = Some sm) ∧
    (∀ r base population,
       log !! r = Some (base, population) →
       base = length (workers sys) + r * length pool ∧
       length population = length pool ∧
       existsb finished population = true ∧
       ∀ j sm, population !! j = Some sm → pc sm = Returned →
               workers sys' !! (base + j) = Some sm).
Proof.
  induction scheds as [|sched rest IH]; intros sys sys' log;
    cbn [main_loop].
  - intros [= <- <-]. simpl. rewrite app_nil_r.
    repeat split; try done; lia.
  - pose proof (poll_collector_metrics e (world sys)) as Hpm.
    destruct (poll e (world sys)) as [r w1]. cbn [snd] in Hpm.
    cbv beta iota zeta.
    destruct r; cycle 1.
    { intros [= <- <-]. simpl. rewrite app_nil_r.
      repeat split; try done; lia. }
    set (sys1 := {| world := w1; workers := workers sys |}).
    destruct (round e pool sched sys1) as [[sys2 [base population]]|] eqn:Hr;
      [|done].
    destruct (main_loop e pool rest sys2) as [[sys3 log']|] eqn:Hm; [|done].
    intros [= <- <-].
    destruct (round_spec _ _ _ _ _ _ _ Hr)
      as (Hb & Hpop & Hlen & Hex & Hmet & Hstab).
    destruct (IH _ _ _ Hm) as (Hmet' & Hlen' & Hstab' & Hlog').
    simpl in Hb, Hmet. rewrite Hpm in Hmet.
    split. { rewrite Hmet', Hmet. simpl. rewrite fmap_app, concat_app.
             by rewrite app_assoc. }
    split. { rewrite Hlen', Hlen, Hb. simpl. lia. }
    split. { intros i sm Hi Hpc. apply Hstab'; [|done]. by apply Hstab. }
    intros [|r] base' population' Hlk; simpl in Hlk.
    + injection Hlk as <- <-.
      split; [lia|].
      split. { rewrite Hpop, length_drop, Hlen. lia. }
      split; [done|].
      intros j sm Hj Hpc. apply Hstab'; [|done].
      by rewrite Hpop, lookup_drop in Hj.
    + destruct (Hlog' _ _ _ Hlk) as (Hb' & Hl' & Hex' & Hst').
      split; [rewrite Hb', Hlen, Hb; lia|]. by repeat split.
Qed.






(** In that run worker 2 was harvested with no record and makes its only
    record afterwards: the workers hold four records at the end, the
    collector three. *)
Example late_record_is_not_collected :
  ∃ sys' log sm2,
    main_loop one_login_succeeds main_credentials two_rounds
              (fresh_system main_config) = Some (sys', log) ∧
    MetricsCollector.metrics (collector (world sys'))
      = [metric_login_refused; metric_login_200; metric_login_refused] ∧
    workers sys' !! 2 = Some sm2 ∧
    metrics sm2 = [metric_login_refused] ∧
    sum_list_with (fun sm => length (metrics sm)) (workers sys') = 4.
Proof.
  vm_compute. eexists _, _, _. repeat split.
Qed.

(** ** C9: an inconsistent configuration is not rejected *)

Lemma C9_counterexample : ¬ fails_fast.
Proof.
  intros H.
  assert (¬ consistent dangling_config) as Hbad.
  { intros [[sd Hsd] _]. vm_compute in Hsd. discriminate Hsd. }
  specialize (H (always ok_200) dangling_config main_credentials [[0]]
                _ _ Hbad eq_refl).
  vm_compute in H. discriminate H.
Qed.

Lemma harvest_no_metrics population c :
  Forall (fun sm => metrics sm = []) population →
  MetricsCollector.metrics (harvest population c)
  = MetricsCollector.metrics c.
Proof.
  intros H. rewrite harvest_metrics.
  assert (concat (metrics <$> population) = []) as ->;
    [|by rewrite app_nil_r].
  induction H as [|sm l Hsm _ IH]; [done|].
  cbn [fmap list_fmap concat]. by rewrite Hsm, IH.
Qed.

(** The first round of [main] when the initial state is not in the graph:
    the workers are created all the same, worker 0 returns at its first
    test and the round is harvested. *)
Lemma first_round_absent_initial_state e cfg pool :
  states cfg !! default "INITIAL" (initial_state cfg) = None →
  pool ≠ [] → sigint e 0 = false →
  ∃ sys' population,
    main_loop e pool [[0]] (fresh_system cfg)
      = Some (sys', [(0, population)]) ∧
    length (workers sys') = length pool ∧
    length population = length pool ∧
    workers sys' !! 0 = Some (set_pc Returned (StateMachine_init cfg pool)) ∧
    MetricsCollector.metrics (collector (world sys')) = [] ∧
    config (world sys') = cfg ∧ now (world sys') = 1.
Proof.
  intros Habs Hpool Hsig.
  destruct pool as [|c rest]; [done|]. clear Hpool.
  set (pool := c :: rest).
  set (sm0 := StateMachine_init cfg pool).
  set (w1 := tick (initial_world cfg)).
  set (ws := set_pc Returned sm0 :: replicate (length rest) sm0).
  assert (poll e (initial_world cfg) = (true, w1)) as Hpoll.
  { by rewrite poll_quiet. }
  assert (step e w1 sm0 = Some (w1, set_pc Returned sm0)) as Hstep.
  { by apply step_AtWhile_absent. }
  assert (round e pool [0] {| world := w1; workers := [] |}
          = Some ({| world := set_collector (harvest ws (collector w1)) w1;
                     workers := ws |}, (0, ws))) as Hround.
  { unfold round, schedule, spawn. cbn [foldl workers world length app].
    unfold step_worker. cbn [workers world].
    change (config w1) with cfg. fold sm0.
    change (replicate (length pool) sm0)
      with (sm0 :: replicate (length rest) sm0).
    cbn [lookup list_lookup]. rewrite Hstep. reflexivity. }
  exists {| world := set_collector (harvest ws (collector w1)) w1;
            workers := ws |}, ws.
  split.
  { cbn [main_loop fresh_system world workers]. rewrite Hpoll.
    cbv beta iota zeta. by rewrite Hround. }
  cbn [workers world set_collector collector config now].
  assert (length ws = length pool) as Hlen.
  { unfold ws, pool. simpl. by rewrite length_replicate. }
  repeat split; try done.
  rewrite harvest_no_metrics; [done|].
  unfold ws. constructor; [done|].
  apply Forall_forall. intros sm Hsm.
  apply elem_of_replicate in Hsm as [-> _]. done.
Qed.

(** Claim C9, amended. An inconsistent configuration is not rejected at
    startup. When the initial state is not a state of the graph, [main]
    still creates one worker per credential; a worker returns at its first
    loop test and the round is harvested, with no request made, no record
    collected and no error. When a worker follows a transition whose target
    is not a state of the graph, it takes the target as its state and [run]
    returns, at the latest at the next loop test, with no further request
    and no further record. *)
Theorem C9_inconsistency_is_tolerated
    (e : Env) (cfg : Config) (pool : list Credential)
    (w : World) (sm : StateMachine) (sd : StateDef)
    (i : nat) (nm : string) (req : Request) (tr : Transition) :
  (states cfg !! default "INITIAL" (initial_state cfg) = None →
   pool ≠ [] → sigint e 0 = false →
   ∃ sys' population,
     main_loop e pool [[0]] (fresh_system cfg)
       = Some (sys', [(0, population)]) ∧
     length (workers sys') = length pool ∧
     length population = length pool ∧
     workers sys' !! 0
       = Some (set_pc Returned (StateMachine_init cfg pool)) ∧
     MetricsCollector.metrics (collector (world sys')) = [] ∧
     config (world sys') = cfg ∧ now (world sys') = 1) ∧
  (pc sm = Awaiting i nm req →
   states (config w) !! state sm = Some sd →
   first_transition (transitions sd)
     (reply_status (session e (now w) req)) = Some tr →
   states (config w) !! next_state tr = None →
   ∃ sm',
     step e w sm = Some (tick w, sm') ∧ state sm' = next_state tr ∧
     ∀ fuel, ∃ sm'',
       run e (S fuel) (tick w) sm' = Some (tick w, sm'') ∧
       pc sm'' = Returned ∧ state sm'' = next_state tr ∧
       metrics sm'' = metrics sm').
Proof.
  split; [apply first_round_absent_initial_state|].
  intros Hpc Hs Hft Habs.
  rewrite (step_Awaiting _ _ _ _ _ _ _ Hpc Hs). cbn zeta.
  eexists. split; [reflexivity|].
  unfold follow. rewrite Hft.
  destruct (execute_task_recv_frame sm nm (session e (now w) req))
    as (_ & Hpc1 & _).
  set (sm1 := fst (execute_task_recv sm nm (session e (now w) req))).
  destruct (default false (terminate tr)).
  - split; [done|]. intros fuel.
    exists (set_pc Returned (set_state (next_state tr) sm1)).
    split; [by apply run_Returned | done].
  - split; [done|]. intros fuel.
    exists (set_pc Returned
              (set_pc AtWhile (set_state (next_state tr) sm1))).
    split; [|done].
    cbn [run set_pc pc].
    rewrite step_AtWhile_absent; [|done|done].
    by apply run_Returned.
Qed.

Lemma C9_witness :
  (∃ sys' population,
     main_loop (always ok_200) main_credentials [[0]]
               (fresh_system dangling_config)
       = Some (sys', [(0, population)]) ∧
     length (workers sys') = 3 ∧
     length population = 3 ∧
     workers sys' !! 0
       = Some (set_pc Returned
                 (StateMachine_init dangling_config main_credentials)) ∧
     MetricsCollector.metrics (collector (world sys')) = [] ∧
     config (world sys') = dangling_config ∧ now (world sys') = 1) ∧
  (∃ sm',
     step (always ok_200) (initial_world broken_config)
          (awaiting "A" "a" request_a)
       = Some (tick (initial_world broken_config), sm') ∧
     state sm' = "NOWHERE" ∧
     ∀ fuel, ∃ sm'',
       run (always ok_200) (S fuel) (tick (initial_world broken_config)) sm'
         = Some (tick (initial_world broken_config), sm'') ∧
       pc sm'' = Returned ∧ state sm'' = "NOWHERE" ∧
       metrics sm'' = metrics sm').
Proof.
  split.
  - apply (proj1 (C9_inconsistency_is_tolerated (always ok_200)
                    dangling_config main_credentials
                    (initial_world broken_config)
                    (awaiting "A" "a" request_a) broken_state
                    0 "a" request_a to_nowhere)); [reflexivity|done|reflexivity].
  - apply (proj2 (C9_inconsistency_is_tolerated (always ok_200)
                    dangling_config main_credentials
                    (initial_world broken_config)
                    (awaiting "A" "a" request_a) broken_state
                    0 "a" request_a to_nowhere)); reflexivity.
Defined.

(** * Further properties of the worker, the collector and [main] *)

(** Closes a goal whose hypothesis [H] says that a closed run gives [None],
    by computing that it gives [Some]. *)
Ltac run_is_some H :=
  apply (f_equal (fun r => match r with Some _ => true | None => false end))
    in H;
  vm_compute in H; discriminate H.

(** ** The shape of the graph is kept *)

Lemma same_task_refl t : same_task t t.
Proof. by repeat split. Qed.

Lemma same_task_trans t1 t2 t3 :
  same_task t1 t2 → same_task t2 t3 → same_task t1 t3.
Proof.
  intros (H1 & H2 & H3 & H4 & H5) (G1 & G2 & G3 & G4 & G5).
  repeat split; try congruence; intros H; [apply H5, G5 | apply G5, H5]; done.
Qed.

Lemma same_def_refl sd : same_def sd sd.
Proof.
  split; [done|]. apply Forall_Forall2_diag, Forall_forall.
  intros t _. apply same_task_refl.
Qed.

Lemma same_def_trans sd1 sd2 sd3 :
  same_def sd1 sd2 → same_def sd2 sd3 → same_def sd1 sd3.
Proof.
  intros [H1 H2] [G1 G2]. split; [congruence|].
  revert G2. generalize (tasks sd3). induction H2 as [|t1 t2 l1 l2 Ht Hl IH];
    intros l3 G2; inversion G2; subst; constructor.
  - by eapply same_task_trans.
  - by apply IH.
Qed.

Lemma same_graph_refl cfg : same_graph cfg cfg.
Proof.
  split; [done|]. intros s. destruct (states cfg !! s); constructor.
  apply same_def_refl.
Qed.

Lemma same_graph_trans c1 c2 c3 :
  same_graph c1 c2 → same_graph c2 c3 → same_graph c1 c3.
Proof.
  intros [H1 H2] [G1 G2]. split; [congruence|]. intros s.
  specialize (H2 s). specialize (G2 s).
  destruct H2 as [sd1 sd2 H|]; inversion G2; subst; constructor.
  by eapply same_def_trans.
Qed.

Lemma same_graph_lookup cfg cfg' s sd :
  same_graph cfg cfg' → states cfg !! s = Some sd →
  ∃ sd', states cfg' !! s = Some sd' ∧ same_def sd sd'.
Proof.
  intros [_ H] Hs. specialize (H s). rewrite Hs in H.
  inversion H; subst. eauto.
Qed.

Lemma same_graph_is_Some cfg cfg' s :
  same_graph cfg cfg' →
  is_Some (states cfg' !! s) ↔ is_Some (states cfg !! s).
Proof.
  intros [_ H]. specialize (H s).
  destruct H; split; intros [? ?]; eauto; done.
Qed.

Lemma execute_task_send_same_graph w sm i t sd :
  states (config w) !! state sm = Some sd → tasks sd !! i = Some t →
  same_graph (config w) (config (fst (execute_task_send w sm i t))).
Proof.
  intros Hs Ht. unfold execute_task_send.
  destruct (params t) as [p|] eqn:Hp; cbn [from_option id data];
    [|apply same_graph_refl].
  destruct (data p) as [d|] eqn:Hd; [|apply same_graph_refl].
  destruct (truthy (current_credential sm)); [|apply same_graph_refl].
  cbn [fst config set_config]. split; [done|]. intros s.
  destruct (decide (state sm = s)) as [<-|Hne].
  - rewrite store_task_lookup, Hs. cbn [fmap option_fmap option_map].
    constructor. split; [done|]. cbn [tasks].
    apply Forall2_same_length_lookup. split; [by rewrite length_insert|].
    intros j t1 t2 H1 H2.
    destruct (decide (i = j)) as [<-|Hij].
    + rewrite list_lookup_insert_eq in H2 by (by eapply lookup_lt_Some).
      injection H2 as <-. rewrite Ht in H1. injection H1 as <-.
      repeat split; cbn; rewrite ?Hp; cbn; rewrite ?Hd; eauto.
    + rewrite list_lookup_insert_ne in H2 by done.
      rewrite H1 in H2. injection H2 as <-. apply same_task_refl.
  - rewrite store_task_lookup_ne by done.
    destruct (states (config w) !! s); constructor. apply same_def_refl.
Qed.

(** A move of a worker keeps the shape of the shared graph: the initial state, the set of states, the transitions of every
    state and, for every task, its name, method, URL, its keyword arguments
    other than [data] and whether it has a [data] dictionary. *)
Lemma step_same_graph e w sm w' sm' :
  step e w sm = Some (w', sm') → same_graph (config w) (config w').
Proof.
  unfold step. destruct (pc sm) as [|i|i nm req|].
  - destruct (states (config w) !! state sm);
      [|intros [= <- <-]; apply same_graph_refl].
    pose proof (poll_config e w) as Hc.
    destruct (poll e w) as [r w1]. cbn [snd] in Hc.
    intros [= <- <-]. rewrite Hc. apply same_graph_refl.
  - destruct (states (config w) !! state sm) as [sd|] eqn:Hs; [|done].
    cbn [mbind option_bind].
    destruct (tasks sd !! i) as [t|] eqn:Ht;
      [|intros [= <- <-]; apply same_graph_refl].
    pose proof (poll_config e w) as Hc.
    destruct (poll e w) as [r w1]. cbn [snd] in Hc.
    destruct r; [|intros [= <- <-]; rewrite Hc; apply same_graph_refl].
    destruct (take_credential_frame sm) as (Hst & _ & _).
    pose proof (execute_task_send_same_graph w1 (take_credential sm) i t sd)
      as Hg.
    rewrite Hst, Hc in Hg. specialize (Hg Hs Ht).
    destruct (execute_task_send w1 (take_credential sm) i t) as [w2 rq].
    cbn [fst] in Hg. intros [= <- <-]. exact Hg.
  - destruct (states (config w) !! state sm) as [sd|]; [|done].
    cbn [mbind option_bind].
    destruct (execute_task_recv sm nm (session e (now w) req)).
    intros [= <- <-]. apply same_graph_refl.
  - done.
Qed.

Lemma step_worker_same_graph e sys j :
  same_graph (config (world sys)) (config (world (step_worker e sys j))).
Proof.
  unfold step_worker. destruct (workers sys !! j) as [sm|];
    [|apply same_graph_refl].
  destruct (step e (world sys) sm) as [[w1 sm1]|] eqn:Hstep;
    [|apply same_graph_refl].
  by apply (step_same_graph _ _ _ _ _ Hstep).
Qed.

Lemma schedule_same_graph e sched :
  ∀ sys,
    same_graph (config (world sys)) (config (world (schedule e sched sys))).
Proof.
  unfold schedule.
  induction sched as [|j sched IH]; intros sys; cbn [foldl].
  - apply same_graph_refl.
  - eapply same_graph_trans; [apply step_worker_same_graph | apply IH].
Qed.

(** ** No worker is ever stuck *)

Lemma step_progress e w sm :
  in_graph w sm → pc sm ≠ Returned → is_Some (step e w sm).
Proof.
  unfold in_graph, step. destruct (pc sm) as [|i|i nm req|]; intros Hg Hpc.
  - destruct (states (config w) !! state sm); [|eauto].
    destruct (poll e w); eauto.
  - destruct Hg as [sd ->]. cbn [mbind option_bind].
    destruct (tasks sd !! i); [|eauto].
    destruct (poll e w) as [[] w1]; [|eauto].
    destruct (execute_task_send w1 (take_credential sm) i t); eauto.
  - destruct Hg as [sd ->]. cbn [mbind option_bind].
    destruct (execute_task_recv sm nm (session e (now w) req)); eauto.
  - done.
Qed.

Lemma in_graph_same_graph w w' sm :
  same_graph (config w) (config w') → in_graph w sm → in_graph w' sm.
Proof.
  intros Hg. unfold in_graph. destruct (pc sm); try done;
    by rewrite (same_graph_is_Some _ _ _ Hg).
Qed.

Lemma follow_state_pc trs st i sm :
  (∃ tr, first_transition trs st = Some tr ∧
         state (follow trs st i sm) = next_state tr ∧
         (pc (follow trs st i sm) = Returned ∨
          pc (follow trs st i sm) = AtWhile)) ∨
  (first_transition trs st = None ∧
   state (follow trs st i sm) = state sm ∧
   pc (follow trs st i sm) = AtFor (S i)).
Proof.
  unfold follow. destruct (first_transition trs st) as [tr|]; [left|right].
  - exists tr. destruct (default false (terminate tr)); simpl; auto.
  - done.
Qed.

Lemma step_in_graph e w sm w' sm' :
  in_graph w sm → step e w sm = Some (w', sm') → in_graph w' sm'.
Proof.
  intros Hg Hstep.
  pose proof (step_same_graph _ _ _ _ _ Hstep) as Hsame.
  revert Hstep. unfold step.
  destruct (pc sm) as [|i|i nm req|] eqn:Hpc.
  - destruct (states (config w) !! state sm) as [sd|] eqn:Hs;
      [|by intros [= <- <-]].
    destruct (poll e w) as [[] w1]; intros [= <- <-]; [|done].
    unfold in_graph. cbn [pc set_pc state].
    rewrite (same_graph_is_Some _ _ _ Hsame). by rewrite Hs.
  - destruct (states (config w) !! state sm) as [sd|] eqn:Hs; [|done].
    cbn [mbind option_bind].
    destruct (tasks sd !! i) as [t|]; [|by intros [= <- <-]].
    destruct (poll e w) as [[] w1]; [|by intros [= <- <-]].
    destruct (take_credential_frame sm) as (Hst & _ & _).
    destruct (execute_task_send w1 (take_credential sm) i t) as [w2 rq].
    intros [= <- <-]. unfold in_graph. cbn [pc set_pc state].
    rewrite (same_graph_is_Some _ _ _ Hsame), Hst. by rewrite Hs.
  - destruct (states (config w) !! state sm) as [sd|] eqn:Hs; [|done].
    cbn [mbind option_bind].
    destruct (execute_task_recv_frame sm nm (session e (now w) req))
      as (Hst & _).
    destruct (execute_task_recv sm nm (session e (now w) req))
      as [sm1 st]. cbn [fst] in Hst.
    intros [= <- <-]. unfold in_graph.
    destruct (follow_state_pc (transitions sd) st i sm1)
      as [(tr & _ & _ & [-> | ->]) | (_ & Hfs & ->)]; try done.
    rewrite Hfs, Hst. cbn [config tick]. by rewrite Hs.
  - done.
Qed.

Lemma step_worker_in_graph e sys j :
  Forall (in_graph (world sys)) (workers sys) →
  Forall (in_graph (world (step_worker e sys j)))
         (workers (step_worker e sys j)).
Proof.
  intros H. unfold step_worker.
  destruct (workers sys !! j) as [sm|] eqn:Hj; [|done].
  destruct (step e (world sys) sm) as [[w1 sm1]|] eqn:Hstep; [|done].
  cbn [world workers].
  pose proof (step_same_graph _ _ _ _ _ Hstep) as Hsame.
  apply Forall_insert.
  - eapply Forall_impl; [exact H|]. intros sm2.
    by apply in_graph_same_graph.
  - eapply step_in_graph; [|exact Hstep].
    by apply (Forall_lookup_1 _ _ _ _ H Hj).
Qed.

Lemma schedule_in_graph e sched sys :
  Forall (in_graph (world sys)) (workers sys) →
  Forall (in_graph (world (schedule e sched sys)))
         (workers (schedule e sched sys)).
Proof.
  unfold schedule. revert sys.
  induction sched as [|j sched IH]; intros sys H; cbn [foldl]; [done|].
  by apply IH, step_worker_in_graph.
Qed.

Lemma spawn_in_graph w cfg pool :
  Forall (in_graph w) (spawn cfg pool).
Proof.
  unfold spawn. apply Forall_forall. intros sm Hsm.
  apply elem_of_replicate in Hsm as [-> _]. done.
Qed.

Lemma round_in_graph e pool sched sys sys' h :
  round e pool sched sys = Some (sys', h) →
  Forall (in_graph (world sys)) (workers sys) →
  Forall (in_graph (world sys')) (workers sys').
Proof.
  unfold round.
  set (sys1 := {| world := world sys;
                  workers := workers sys ++ spawn (config (world sys)) pool |}).
  destruct (existsb finished _); [|done].
  intros [= <- <-] H. cbn [world workers].
  assert (Forall (in_graph (world sys1)) (workers sys1)) as H1.
  { apply Forall_app. split; [done|]. apply spawn_in_graph. }
  apply (schedule_in_graph e sched) in H1.
  eapply Forall_impl; [exact H1|]. intros sm.
  apply in_graph_same_graph. cbn [config set_collector].
  apply same_graph_refl.
Qed.

Lemma main_loop_in_graph e pool scheds :
  ∀ sys sys' log,
    main_loop e pool scheds sys = Some (sys', log) →
    Forall (in_graph (world sys)) (workers sys) →
    Forall (in_graph (world sys')) (workers sys').
Proof.
  induction scheds as [|sched rest IH]; intros sys sys' log;
    cbn [main_loop].
  - by intros [= <- <-].
  - pose proof (poll_config e (world sys)) as Hc.
    destruct (poll e (world sys)) as [r w1]. cbn [snd] in Hc.
    cbv beta iota zeta.
    assert (∀ l, Forall (in_graph (world sys)) l → Forall (in_graph w1) l)
      as Hw.
    { intros l Hl. eapply Forall_impl; [exact Hl|]. intros sm.
      apply in_graph_same_graph. rewrite Hc. apply same_graph_refl. }
    destruct r; [|intros [= <- <-] H; by apply Hw].
    destruct (round e pool sched {| world := w1; workers := workers sys |})
      as [[sys2 h]|] eqn:Hr; [|done].
    destruct (main_loop e pool rest sys2) as [[sys3 log']|] eqn:Hm; [|done].
    intros [= <- <-] H.
    eapply IH; [exact Hm|]. eapply round_in_graph; [exact Hr|].
    by apply Hw.
Qed.

(** Property X2. In a run of [main] that starts without workers, a
    worker is never stuck: at any point every worker has either returned or
    has a next move, in any environment. In particular the look-up
    [self.config["states"][self.state]] of line 52 and the transitions read
    after a request always find the state. *)
Theorem X2_no_worker_is_stuck
    (e e' : Env) (pool : list Credential) (scheds : list (list nat))
    (cfg : Config) (sys' : System) (log : list (nat * list StateMachine)) :
  main_loop e pool scheds (fresh_system cfg) = Some (sys', log) →
  Forall (fun sm => pc sm = Returned ∨ is_Some (step e' (world sys') sm))
         (workers sys').
Proof.
  intros H. apply main_loop_in_graph in H; [|by constructor].
  eapply Forall_impl; [exact H|]. intros sm Hg. cbv beta.
  destruct (pc sm) eqn:Hpc; [right; apply step_progress; [done|congruence]..
                            |by left].
Qed.

Lemma X2_witness :
  ∃ sys' log,
    main_loop one_login_succeeds main_credentials two_rounds
              (fresh_system main_config) = Some (sys', log) ∧
    Forall (fun sm => pc sm = Returned ∨
                      is_Some (step (always ok_200) (world sys') sm))
           (workers sys').
Proof.
  destruct (main_loop one_login_succeeds main_credentials two_rounds
              (fresh_system main_config)) as [[sys' log]|] eqn:Hrun.
  - exists sys', log. split; [reflexivity|].
    exact (X2_no_worker_is_stuck one_login_succeeds (always ok_200)
             main_credentials two_rounds main_config sys' log Hrun).
  - run_is_some Hrun.
Defined.

(** ** Shutdown *)

Lemma step_running_false e w sm w' sm' :
  step e w sm = Some (w', sm') →
  MetricsCollector.running (collector w) = false →
  MetricsCollector.running (collector w') = false.
Proof.
  intros Hstep Hr. revert Hstep. unfold step.
  destruct (pc sm) as [|i|i nm req|].
  - destruct (states (config w) !! state sm); [|by intros [= <- <-]].
    destruct (poll_stopped e w Hr) as [_ Hp].
    destruct (poll e w) as [r w1]. by intros [= <- <-].
  - destruct (states (config w) !! state sm) as [sd|]; [|done].
    cbn [mbind option_bind].
    destruct (tasks sd !! i) as [t|]; [|by intros [= <- <-]].
    destruct (poll_stopped e w Hr) as [Hf Hp].
    destruct (poll e w) as [r w1]. cbn [fst snd] in Hf, Hp. subst r.
    by intros [= <- <-].
  - destruct (states (config w) !! state sm) as [sd|]; [|done].
    cbn [mbind option_bind].
    destruct (execute_task_recv sm nm (session e (now w) req)).
    by intros [= <- <-].
  - done.
Qed.

Lemma step_worker_running_false e sys j :
  MetricsCollector.running (collector (world sys)) = false →
  MetricsCollector.running (collector (world (step_worker e sys j))) = false.
Proof.
  intros Hr. unfold step_worker.
  destruct (workers sys !! j) as [sm|]; [|done].
  destruct (step e (world sys) sm) as [[w1 sm1]|] eqn:Hstep; [|done].
  by apply (step_running_false _ _ _ _ _ Hstep).
Qed.

(** Property X3. The shutdown is final: once the [running] flag of
    the collector is false, no move of any worker, in any order and in any
    environment, makes it true again. *)
Theorem X3_shutdown_is_final
    (e : Env) (sched : list nat) (sys : System) :
  MetricsCollector.running (collector (world sys)) = false →
  MetricsCollector.running (collector (world (schedule e sched sys))) = false.
Proof.
  unfold schedule. revert sys.
  induction sched as [|j sched IH]; intros sys Hr; cbn [foldl]; [done|].
  by apply IH, step_worker_running_false.
Qed.

Lemma X3_witness :
  MetricsCollector.running
    (collector
       (world (schedule (always ok_200) [0; 0; 0; 0]
                 {| world :=
                      {| config := main_config;
                         collector := MetricsCollector.stop
                                        MetricsCollector.init;
                         now := 0 |};
                    workers := spawn main_config main_credentials |})))
  = false.
Proof.
  apply (X3_shutdown_is_final (always ok_200) [0; 0; 0; 0]
           {| world :=
                {| config := main_config;
                   collector := MetricsCollector.stop MetricsCollector.init;
                   now := 0 |};
              workers := spawn main_config main_credentials |}).
  reflexivity.
Defined.

(** Property X4. After the shutdown [main] starts nothing: when the
    flag is false at the test of its [while] loop, whatever the pool and
    whatever the event loop would do next, [main] leaves the loop with the
    same workers and the same collected records, and harvests nothing. *)
Theorem X4_main_stops_after_shutdown
    (e : Env) (pool : list Credential) (sched : list nat)
    (scheds : list (list nat)) (sys : System) :
  MetricsCollector.running (collector (world sys)) = false →
  ∃ w',
    main_loop e pool (sched :: scheds) sys
      = Some ({| world := w'; workers := workers sys |}, []) ∧
    config w' = config (world sys) ∧
    MetricsCollector.metrics (collector w')
      = MetricsCollector.metrics (collector (world sys)) ∧
    MetricsCollector.running (collector w') = false.
Proof.
  intros Hr. cbn [main_loop].
  destruct (poll_stopped e (world sys) Hr) as [Hf Hp].
  pose proof (poll_config e (world sys)) as Hc.
  pose proof (poll_collector_metrics e (world sys)) as Hm.
  destruct (poll e (world sys)) as [r w1]. cbn [fst snd] in *. subst r.
  cbv beta iota zeta. by exists w1.
Qed.

Lemma X4_witness :
  ∃ w',
    main_loop (always ok_200) main_credentials two_rounds
      {| world := {| config := main_config;
                     collector := MetricsCollector.stop MetricsCollector.init;
                     now := 0 |};
         workers := [] |}
      = Some ({| world := w'; workers := [] |}, []) ∧
    config w' = main_config ∧
    MetricsCollector.metrics (collector w') = [] ∧
    MetricsCollector.running (collector w') = false.
Proof.
  apply (X4_main_stops_after_shutdown (always ok_200) main_credentials
           first_round [[3; 3; 4; 4; 5; 5; 2; 3]]
           {| world := {| config := main_config;
                          collector := MetricsCollector.stop
                                         MetricsCollector.init;
                          now := 0 |};
              workers := [] |}).
  reflexivity.
Defined.

(** A run that reaches [Returned] in [n] moves returns with any fuel of at
    least [n]. *)
Lemma steps_run e n :
  ∀ w sm w' sm' fuel,
    steps e n w sm = Some (w', sm') → pc sm' = Returned → n ≤ fuel →
    run e fuel w sm = Some (w', sm').
Proof.
  induction n as [|n IH]; intros w sm w' sm' fuel Hs Hpc Hle.
  - injection Hs as <- <-. by apply run_Returned.
  - cbn [steps] in Hs.
    destruct (step e w sm) as [[w1 sm1]|] eqn:Hstep; [|done].
    destruct fuel as [|fuel]; [lia|].
    cbn [run]. rewrite Hstep.
    rewrite (IH _ _ _ _ fuel Hs Hpc) by lia.
    destruct (pc sm) eqn:Hp; try done.
    by rewrite (step_Returned _ _ _ Hp) in Hstep.
Qed.

Lemma drain_AtWhile e w sm :
  pc sm = AtWhile → MetricsCollector.running (collector w) = false →
  ∃ w', step e w sm = Some (w', set_pc Returned sm) ∧
        MetricsCollector.running (collector w') = false.
Proof.
  intros Hpc Hr.
  destruct (states (config w) !! state sm) as [sd|] eqn:Hs.
  - rewrite (step_AtWhile_present _ _ _ _ Hpc Hs).
    destruct (poll_stopped e w Hr) as [-> Hp]. eauto.
  - rewrite (step_AtWhile_absent _ _ _ Hpc Hs). eauto.
Qed.

Lemma drain_AtFor e w sm i :
  pc sm = AtFor i → is_Some (states (config w) !! state sm) →
  MetricsCollector.running (collector w) = false →
  ∃ w', steps e 2 w sm = Some (w', set_pc Returned sm).
Proof.
  intros Hpc [sd Hs] Hr. cbn [steps].
  destruct (tasks sd !! i) as [t|] eqn:Ht.
  - destruct (poll_stopped e w Hr) as [Hf Hp].
    rewrite (step_AtFor_stopped _ _ _ _ _ _ Hpc Hs Ht Hf).
    destruct (drain_AtWhile e (snd (poll e w)) (set_pc AtWhile sm))
      as (w' & -> & _); [done..|]. eauto.
  - rewrite (step_AtFor_exhausted _ _ _ _ _ Hpc Hs Ht).
    destruct (drain_AtWhile e w (set_pc AtWhile sm))
      as (w' & -> & _); [done..|]. eauto.
Qed.

(** Property X5. After the shutdown a worker winds up quickly,
    wherever it is: with the flag false, [run] returns within four moves.
    A worker that is not waiting for a reply makes no request and returns
    with its state and its records as they are; a worker that is waiting
    for a reply records that one reply and makes no further request. *)
Theorem X5_worker_winds_up_after_shutdown
    (e : Env) (w : World) (sm : StateMachine) :
  MetricsCollector.running (collector w) = false →
  in_graph w sm →
  ∃ w' sm',
    run e 4 w sm = Some (w', sm') ∧ pc sm' = Returned ∧
    match pc sm with
    | Awaiting _ _ _ => length (metrics sm') = S (length (metrics sm))
    | _ => metrics sm' = metrics sm ∧ state sm' = state sm
    end.
Proof.
  intros Hr Hg. unfold in_graph in Hg.
  destruct (pc sm) as [|i|i nm req|] eqn:Hpc.
  - destruct (drain_AtWhile e w sm Hpc Hr) as (w' & Hstep & _).
    exists w', (set_pc Returned sm). split; [|done].
    apply (steps_run e 1); [|done|lia]. cbn [steps]. by rewrite Hstep.
  - destruct (drain_AtFor e w sm i Hpc Hg Hr) as (w' & Hs).
    exists w', (set_pc Returned sm). split; [|done].
    by apply (steps_run e 2); [|done|lia].
  - destruct Hg as [sd Hs].
    pose proof (step_Awaiting e w sm sd i nm req Hpc Hs) as Hstep.
    cbn zeta in Hstep.
    set (r := session e (now w) req) in *.
    destruct (execute_task_recv_frame sm nm r) as (Hst & _ & _ & _ & Hlen).
    cbn zeta in Hst, Hlen.
    set (sm1 := fst (execute_task_recv sm nm r)) in *.
    set (sm2 := follow (transitions sd) (reply_status r) i sm1) in *.
    assert (metrics sm2 = metrics sm1) as Hm2 by apply follow_metrics.
    assert (MetricsCollector.running (collector (tick w)) = false) as Hr1
      by done.
    destruct (follow_state_pc (transitions sd) (reply_status r) i sm1)
      as [(tr & _ & _ & [Hp | Hp]) | (_ & Hfs & Hp)]; fold sm2 in Hp.
    + exists (tick w), sm2. split; [|by rewrite Hm2].
      apply (steps_run e 1); [|done|lia]. cbn [steps]. by rewrite Hstep.
    + destruct (drain_AtWhile e (tick w) sm2 Hp Hr1) as (w' & Hs2 & _).
      exists w', (set_pc Returned sm2). split; [|by cbn; rewrite Hm2].
      apply (steps_run e 2); [|done|lia]. cbn [steps].
      by rewrite Hstep, Hs2.
    + fold sm2 in Hfs.
      destruct (drain_AtFor e (tick w) sm2 (S i) Hp) as (w' & Hs2);
        [by rewrite Hfs, Hst; cbn; rewrite Hs | done |].
      exists w', (set_pc Returned sm2). split; [|by cbn; rewrite Hm2].
      apply (steps_run e 3); [|done|lia].
      change 3 with (1 + 2). rewrite steps_add. cbn [steps].
      rewrite Hstep. exact Hs2.
  - exists w, sm. split; [|done]. by apply run_Returned.
Qed.

Lemma X5_witness :
  ∃ w' sm',
    run (always ok_200) 4
        {| config := main_config;
           collector := MetricsCollector.stop MetricsCollector.init;
           now := 0 |}
        (awaiting "FETCH_DATA" "fetch_data" fetch_request)
      = Some (w', sm') ∧
    pc sm' = Returned ∧ length (metrics sm') = 1.
Proof.
  apply (X5_worker_winds_up_after_shutdown (always ok_200)
           {| config := main_config;
              collector := MetricsCollector.stop MetricsCollector.init;
              now := 0 |}
           (awaiting "FETCH_DATA" "fetch_data" fetch_request)).
  - reflexivity.
  - vm_compute. eauto.
Defined.

(** ** What a move does to the attributes of the worker *)

Lemma step_metrics e w sm w' sm' :
  step e w sm = Some (w', sm') →
  match pc sm with
  | Awaiting _ nm _ =>
      (∃ m, metrics sm' = metrics sm ++ [m] ∧ Metric.task m = nm ∧
            Metric.state m = state sm) ∧ waiting sm' = 0
  | _ => metrics sm' = metrics sm
  end.
Proof.
  unfold step. destruct (pc sm) as [|i|i nm req|] eqn:Hpc.
  - destruct (states (config w) !! state sm); [|by intros [= <- <-]].
    destruct (poll e w) as [r w1]. by intros [= <- <-].
  - destruct (states (config w) !! state sm) as [sd|]; [|done].
    cbn [mbind option_bind].
    destruct (tasks sd !! i) as [t|]; [|by intros [= <- <-]].
    destruct (poll e w) as [[] w1]; [|by intros [= <- <-]].
    destruct (take_credential_frame sm) as (_ & Hm & _).
    destruct (execute_task_send w1 (take_credential sm) i t) as [w2 rq].
    by intros [= <- <-].
  - destruct (states (config w) !! state sm) as [sd|]; [|done].
    cbn [mbind option_bind].
    destruct (execute_task_recv_metric sm nm (session e (now w) req))
      as (m & Hm & Hmt & Hms).
    destruct (execute_task_recv sm nm (session e (now w) req))
      as [sm1 st]. cbn [fst] in Hm.
    intros [= <- <-]. rewrite follow_metrics. split; [eauto|].
    unfold waiting.
    by destruct (follow_state_pc (transitions sd) st i sm1)
      as [(tr & _ & _ & [-> | ->]) | (_ & _ & ->)].
  - done.
Qed.

Lemma waiting_le_1 sm : waiting sm ≤ 1.
Proof. unfold waiting. destruct (pc sm); lia. Qed.

Lemma step_potential e w sm w' sm' :
  step e w sm = Some (w', sm') →
  metrics sm `prefix_of` metrics sm' ∧
  2 * length (metrics sm') + waiting sm'
    ≤ 2 * length (metrics sm) + waiting sm + 1.
Proof.
  intros Hstep.
  pose proof (step_metrics _ _ _ _ _ Hstep) as Hm.
  pose proof (waiting_le_1 sm') as H1.
  assert (waiting sm = match pc sm with Awaiting _ _ _ => 1 | _ => 0 end)
    as Hw by done.
  destruct (pc sm) as [|i|i nm req|]; rewrite Hw.
  - rewrite Hm. split; [done|lia].
  - rewrite Hm. split; [done|lia].
  - destruct Hm as [(m & Hm & _) H0]. rewrite Hm, length_app.
    split; [by apply prefix_app_r|]. cbn [length]. lia.
  - rewrite Hm. split; [done|lia].
Qed.

(** Property X6. The records of a worker are only ever appended
    to: after any number of moves the records it had are a prefix of the
    records it has. And a request takes two moves, one to send it and one
    to take the reply, so [n] moves add at most [(n + 1) / 2] records, and
    at most [n / 2] for a worker that was not waiting for a reply. *)
Theorem X6_records_are_append_only
    (e : Env) (n : nat) (w : World) (sm : StateMachine)
    (w' : World) (sm' : StateMachine) :
  steps e n w sm = Some (w', sm') →
  metrics sm `prefix_of` metrics sm' ∧
  2 * length (metrics sm') ≤ 2 * length (metrics sm) + waiting sm + n.
Proof.
  intros H.
  assert (metrics sm `prefix_of` metrics sm' ∧
          2 * length (metrics sm') + waiting sm'
            ≤ 2 * length (metrics sm) + waiting sm + n) as [Hp Hl];
    [|split; [done|lia]].
  revert w sm H. induction n as [|n IH]; intros w sm; cbn [steps].
  - intros [= <- <-]. split; [done|lia].
  - destruct (step e w sm) as [[w1 sm1]|] eqn:Hstep; [|done].
    intros Hn. destruct (IH _ _ Hn) as [Hpre Hle].
    destruct (step_potential _ _ _ _ _ Hstep) as [Hpre1 Hle1].
    split; [by etrans|lia].
Qed.

Lemma X6_witness :
  ∃ w' sm',
    steps (always ok_200) 6 (initial_world main_config)
          (StateMachine_init main_config main_credentials) = Some (w', sm') ∧
    [] `prefix_of` metrics sm' ∧ 2 * length (metrics sm') ≤ 6.
Proof.
  destruct (steps (always ok_200) 6 (initial_world main_config)
              (StateMachine_init main_config main_credentials))
    as [[w' sm']|] eqn:Hrun.
  - exists w', sm'. split; [reflexivity|].
    exact (X6_records_are_append_only (always ok_200) 6
             (initial_world main_config)
             (StateMachine_init main_config main_credentials) w' sm' Hrun).
  - run_is_some Hrun.
Defined.

Lemma step_credentials e w sm w' sm' :
  step e w sm = Some (w', sm') →
  (credentials sm' = credentials sm ∧
   current_credential sm' = current_credential sm) ∨
  (state sm = "LOGIN" ∧ (∃ i, pc sm = AtFor i) ∧
   ∃ c, credentials sm = c :: credentials sm' ∧
        current_credential sm' = Some c).
Proof.
  unfold step. destruct (pc sm) as [|i|i nm req|] eqn:Hpc.
  - destruct (states (config w) !! state sm); [|intros [= <- <-]; by left].
    destruct (poll e w) as [r w1]. intros [= <- <-]. by left.
  - destruct (states (config w) !! state sm) as [sd|]; [|done].
    cbn [mbind option_bind].
    destruct (tasks sd !! i) as [t|]; [|intros [= <- <-]; by left].
    destruct (poll e w) as [[] w1]; [|intros [= <- <-]; by left].
    destruct (execute_task_send w1 (take_credential sm) i t) as [w2 rq].
    intros [= <- <-]. unfold take_credential.
    case_bool_decide as Hl; [|by left].
    destruct (credentials sm) as [|c rest] eqn:Hq.
    { left. cbn [credentials current_credential set_pc]. by rewrite Hq. }
    right. split; [done|]. split; [by exists i|]. by exists c.
  - destruct (states (config w) !! state sm) as [sd|]; [|done].
    cbn [mbind option_bind].
    destruct (execute_task_recv_frame sm nm (session e (now w) req))
      as (_ & _ & Hc & Hcc & _).
    destruct (execute_task_recv sm nm (session e (now w) req))
      as [sm1 st]. cbn [fst] in Hc, Hcc.
    intros [= <- <-]. left. unfold follow.
    destruct (first_transition (transitions sd) st) as [tr|]; [|done].
    by destruct (default false (terminate tr)).
  - done.
Qed.

(** Property X7. A move touches the credentials of its worker in
    one case only: the worker is in state ["LOGIN"], about to run a task,
    and its queue is not empty; then the front of the queue is removed and
    becomes the current credential. Any other move leaves the queue and the
    current credential as they are. So over any number of moves the queue
    only loses elements at its front, the current credential is never
    cleared, and the credential held is the one held at the start or one
    that was in the queue at the start. *)
Theorem X7_credentials_are_taken_from_the_front (e : Env) :
  (∀ w sm w' sm',
     step e w sm = Some (w', sm') →
     (credentials sm' = credentials sm ∧
      current_credential sm' = current_credential sm) ∨
     (state sm = "LOGIN" ∧ (∃ i, pc sm = AtFor i) ∧
      ∃ c, credentials sm = c :: credentials sm' ∧
           current_credential sm' = Some c)) ∧
  (∀ n w sm w' sm',
     steps e n w sm = Some (w', sm') →
     credentials sm' `suffix_of` credentials sm ∧
     (current_credential sm' = current_credential sm ∨
      ∃ c, current_credential sm' = Some c ∧ c ∈ credentials sm)).
Proof.
  split; [intros w sm w' sm'; apply step_credentials|].
  induction n as [|n IH]; intros w sm w' sm'; cbn [steps].
  - intros [= <- <-]. split; [done|by left].
  - destruct (step e w sm) as [[w1 sm1]|] eqn:Hstep; [|done].
    intros Hn. destruct (IH _ _ _ _ Hn) as [Hsuf Hcc].
    destruct (step_credentials _ _ _ _ _ Hstep)
      as [[Hq Hc] | (_ & _ & c & Hq & Hc)].
    + rewrite <- Hq, <- Hc. done.
    + rewrite Hq. split; [by apply suffix_cons_r|].
      destruct Hcc as [Hcc | (c' & Hcc & Hin)].
      * right. exists c. rewrite Hcc, Hc. split; [done|]. by left.
      * right. exists c'. split; [done|]. by right.
Qed.

Lemma X7_witness :
  (∃ w' sm',
     step (always ok_200) (initial_world main_config)
          (at_for "LOGIN" 0 main_credentials) = Some (w', sm') ∧
     ((credentials sm' = main_credentials ∧ current_credential sm' = None) ∨
      ("LOGIN" = "LOGIN" ∧ (∃ i, AtFor 0 = AtFor i) ∧
       ∃ c, main_credentials = c :: credentials sm' ∧
            current_credential sm' = Some c))) ∧
  (∃ w' sm',
     steps (always ok_200) 6 (initial_world main_config)
           (StateMachine_init main_config main_credentials)
       = Some (w', sm') ∧
     credentials sm' `suffix_of` main_credentials ∧
     (current_credential sm' = None ∨
      ∃ c, current_credential sm' = Some c ∧ c ∈ main_credentials)).
Proof.
  destruct (X7_credentials_are_taken_from_the_front (always ok_200))
    as [Hstep Hsteps].
  split.
  - destruct (step (always ok_200) (initial_world main_config)
                (at_for "LOGIN" 0 main_credentials))
      as [[w' sm']|] eqn:Hrun.
    + exists w', sm'. split; [reflexivity|].
      exact (Hstep (initial_world main_config)
               (at_for "LOGIN" 0 main_credentials) w' sm' Hrun).
    + run_is_some Hrun.
  - destruct (steps (always ok_200) 6 (initial_world main_config)
                (StateMachine_init main_config main_credentials))
      as [[w' sm']|] eqn:Hrun.
    + exists w', sm'. split; [reflexivity|].
      exact (Hsteps 6 (initial_world main_config)
               (StateMachine_init main_config main_credentials)
               w' sm' Hrun).
    + run_is_some Hrun.
Defined.


(** ** Workers and the event loop *)

Lemma step_worker_other e sys j i :
  i ≠ j → workers (step_worker e sys j) !! i = workers sys !! i.
Proof.
  intros Hne. unfold step_worker.
  destruct (workers sys !! j) as [sm|]; [|done].
  destruct (step e (world sys) sm) as [[w1 sm1]|]; [|done].
  cbn [workers]. by apply list_lookup_insert_ne.
Qed.

Lemma set_pc_set_pc p q sm : set_pc p (set_pc q sm) = set_pc p sm.
Proof. done. Qed.

Lemma follow_set_pc trs st i p sm :
  follow trs st i (set_pc p sm) = follow trs st i sm.
Proof.
  unfold follow. destruct (first_transition trs st) as [tr|]; [|done].
  by destruct (default false (terminate tr)).
Qed.

Lemma execute_task_recv_set_pc p sm nm r :
  execute_task_recv (set_pc p sm) nm r
  = (set_pc p (fst (execute_task_recv sm nm r)),
     snd (execute_task_recv sm nm r)).
Proof. unfold execute_task_recv. by destruct (outcome r). Qed.

Lemma execute_task_send_set_pc p w sm i t :
  execute_task_send w (set_pc p sm) i t = execute_task_send w sm i t.
Proof. done. Qed.

(** Property X9. Sending a request and taking its reply, the two
    moves that one task costs, amount to one call of [execute_task]
    followed by the choice of the transition: when the flag is true, two
    moves from the head of the [for] loop give the world [execute_task]
    gives, and the worker [execute_task] gives once the first matching
    transition of the state has been followed. *)
Theorem X9_two_moves_are_execute_task
    (e : Env) (w : World) (sm : StateMachine) (sd : StateDef)
    (i : nat) (t : Task) :
  pc sm = AtFor i → states (config w) !! state sm = Some sd →
  tasks sd !! i = Some t → fst (poll e w) = true →
  steps e 2 w sm =
    let '(w', sm', status) :=
      execute_task e (snd (poll e w)) (take_credential sm) i t in
    Some (w', follow (transitions sd) status i sm').
Proof.
  intros Hpc Hs Ht Hr. cbn [steps].
  rewrite (step_AtFor_task _ _ _ _ _ _ Hpc Hs Ht Hr). cbn zeta.
  unfold execute_task.
  destruct (take_credential_frame sm) as (Hst & _ & _).
  set (sm1 := take_credential sm) in *.
  destruct (execute_task_send_frame (snd (poll e w)) sm1 i t sd)
    as (_ & _ & _ & _ & t' & _ & _ & _ & Hs1).
  { by rewrite Hst, poll_config. }
  { done. }
  cbn zeta in Hs1.
  destruct (execute_task_send (snd (poll e w)) sm1 i t) as [w1 req].
  cbn [fst snd] in *.
  rewrite (step_Awaiting e w1 (set_pc (Awaiting i (name t) req) sm1)
             _ i (name t) req eq_refl Hs1).
  cbn zeta. cbn [transitions].
  rewrite execute_task_recv_set_pc. cbn [fst].
  rewrite follow_set_pc.
  rewrite <- (execute_task_recv_status sm1 (name t)).
  by destruct (execute_task_recv sm1 (name t) (session e (now w1) req)).
Qed.

Lemma X9_witness :
  steps (always ok_200) 2 (initial_world main_config)
        (at_for "LOGIN" 0 main_credentials) =
    let '(w', sm', status) :=
      execute_task (always ok_200)
        (snd (poll (always ok_200) (initial_world main_config)))
        (take_credential (at_for "LOGIN" 0 main_credentials)) 0 login_task in
    Some (w', follow (transitions login_state) status 0 sm').
Proof.
  apply (X9_two_moves_are_execute_task (always ok_200)
           (initial_world main_config) (at_for "LOGIN" 0 main_credentials)
           login_state 0 login_task); reflexivity.
Defined.

(** ** The collector *)

Lemma collector_eq (c c' : MetricsCollector.t) :
  MetricsCollector.running c = MetricsCollector.running c' →
  MetricsCollector.metrics c = MetricsCollector.metrics c' → c = c'.
Proof. destruct c, c'. cbn. by intros -> ->. Qed.

(** Property X10. Harvesting a population is one [add_metrics] of
    the records of its workers laid end to end in the order of the
    population: the batches of two workers are never interleaved, the
    records already collected stay in front, and the [running] flag is not
    touched. *)
Theorem X10_harvest_is_one_batch
    (population : list StateMachine) (c : MetricsCollector.t) :
  harvest population c
  = MetricsCollector.add_metrics (concat (metrics <$> population)) c.
Proof.
  apply collector_eq.
  - by rewrite harvest_running.
  - by rewrite harvest_metrics.
Qed.

(** ** The choice of the transition *)

(** Property X11. The transition taken for a status is the earliest
    in declaration order whose condition accepts it, and none is taken
    exactly when no condition accepts it. *)
Theorem X11_first_transition_is_the_earliest_match
    (trs : list Transition) (status : option Z) :
  (∀ tr, first_transition trs status = Some tr ↔
         ∃ before after,
           trs = before ++ tr :: after ∧ condition tr status = true ∧
           Forall (fun t => condition t status = false) before) ∧
  (first_transition trs status = None ↔
   Forall (fun t => condition t status = false) trs).
Proof.
  split; [|apply first_transition_None].
  intros tr. split; [apply first_transition_Some|].
  intros (before & after & -> & Hc & Hb).
  induction Hb as [|t before Ht _ IH]; cbn.
  - by rewrite Hc.
  - by rewrite Ht.
Qed.

(** ** When the graph is written, and what is written *)

Lemma execute_task_send_untouched w sm i t :
  truthy (current_credential sm) = false ∨ params t ≫= data = None →
  execute_task_send w sm i t
  = (w, {| verb := lower (method t); req_url := url t;
           req_params := default {| data := None; kwargs := ∅ |}
                                 (params t) |}).
Proof.
  intros H. unfold execute_task_send.
  destruct (params t) as [p|]; cbn [from_option id]; [|done].
  destruct (data p) as [d|] eqn:Hd; [|done].
  destruct H as [-> | H]; [done|]. cbn in H. congruence.
Qed.

Lemma step_config_untouched e w sm w' sm' :
  step e w sm = Some (w', sm') →
  (credentials sm = [] ∧ truthy (current_credential sm) = false) ∨
  (∀ s sd t, states (config w) !! s = Some sd → t ∈ tasks sd →
             params t ≫= data = None) →
  config w' = config w.
Proof.
  intros Hstep Hno. revert Hstep. unfold step.
  destruct (pc sm) as [|i|i nm req|].
  - destruct (states (config w) !! state sm); [|by intros [= <- <-]].
    pose proof (poll_config e w) as Hc.
    destruct (poll e w) as [r w1]. by intros [= <- <-].
  - destruct (states (config w) !! state sm) as [sd|] eqn:Hs; [|done].
    cbn [mbind option_bind].
    destruct (tasks sd !! i) as [t|] eqn:Ht; [|by intros [= <- <-]].
    pose proof (poll_config e w) as Hc.
    destruct (poll e w) as [r w1]. cbn [snd] in Hc.
    destruct r; [|by intros [= <- <-]].
    rewrite execute_task_send_untouched; [by intros [= <- <-]|].
    destruct Hno as [[Hq Hcc] | Hno].
    + left. unfold take_credential. rewrite Hq.
      by case_bool_decide.
    + right. apply (Hno _ _ _ Hs). by eapply list_elem_of_lookup_2.
  - destruct (states (config w) !! state sm) as [sd|]; [|done].
    cbn [mbind option_bind].
    destruct (execute_task_recv sm nm (session e (now w) req)).
    by intros [= <- <-].
  - done.
Qed.

(** Property X12. The shared graph is written by a request only
    when the worker holds a non-empty credential and the task has a [data]
    dictionary. So a worker with an empty queue that holds no credential
    never changes the graph, and no worker changes a graph none of whose
    tasks has a [data] dictionary: after any number of moves the
    configuration is the same. *)
Theorem X12_graph_is_written_only_with_credential_and_data
    (e : Env) (n : nat) (w : World) (sm : StateMachine)
    (w' : World) (sm' : StateMachine) :
  (credentials sm = [] ∧ truthy (current_credential sm) = false) ∨
  (∀ s sd t, states (config w) !! s = Some sd → t ∈ tasks sd →
             params t ≫= data = None) →
  steps e n w sm = Some (w', sm') →
  config w' = config w.
Proof.
  revert w sm. induction n as [|n IH]; intros w sm Hno; cbn [steps].
  - by intros [= <- <-].
  - destruct (step e w sm) as [[w1 sm1]|] eqn:Hstep; [|done].
    intros Hn.
    pose proof (step_config_untouched _ _ _ _ _ Hstep Hno) as Hc.
    rewrite <- Hc. apply (IH w1 sm1); [|done].
    rewrite Hc. destruct Hno as [[Hq Hcc] | Hno]; [left|by right].
    destruct (step_credentials _ _ _ _ _ Hstep)
      as [[Hq1 Hc1] | (_ & _ & c & Hq1 & _)].
    + by rewrite Hq1, Hc1.
    + by rewrite Hq in Hq1.
Qed.

Lemma X12_witness :
  ∃ w' sm',
    steps (always ok_200) 6 (initial_world main_config)
          (StateMachine_init main_config []) = Some (w', sm') ∧
    config w' = main_config.
Proof.
  destruct (steps (always ok_200) 6 (initial_world main_config)
              (StateMachine_init main_config []))
    as [[w' sm']|] eqn:Hrun.
  - exists w', sm'. split; [reflexivity|].
    apply (X12_graph_is_written_only_with_credential_and_data
             (always ok_200) 6 (initial_world main_config)
             (StateMachine_init main_config []) w' sm'); [|exact Hrun].
    left. split; reflexivity.
  - run_is_some Hrun.
Defined.

Lemma truthy_update (c : option Credential) (d : Body) :
  (if truthy c then update (default ∅ c) d else d) = update (default ∅ c) d.
Proof.
  destruct c as [c|]; cbn; [|by rewrite update_empty].
  case_bool_decide as H; cbn; [|done]. rewrite H. by rewrite update_empty.
Qed.

(** After the request has left, the task stored in the graph holds the
    [data] dictionary that was sent. *)
Lemma execute_task_send_stored w sm i t sd d :
  states (config w) !! state sm = Some sd → tasks sd !! i = Some t →
  params t ≫= data = Some d →
  let wr := execute_task_send w sm i t in
  ∃ sd1 t1,
    states (config (fst wr)) !! state sm = Some sd1 ∧
    tasks sd1 !! i = Some t1 ∧
    params t1 ≫= data = Some (update (default ∅ (current_credential sm)) d) ∧
    data (req_params (snd wr))
      = Some (update (default ∅ (current_credential sm)) d).
Proof.
  intros Hs Ht Hd. cbn zeta. unfold execute_task_send.
  destruct (params t) as [p|] eqn:Hp; cbn in Hd; [|done].
  cbn [from_option id]. rewrite Hd.
  pose proof (truthy_update (current_credential sm) d) as Hu.
  destruct (truthy (current_credential sm)); cbn [fst snd].
  - cbn [config set_config]. rewrite store_task_lookup, Hs.
    cbn [fmap option_fmap option_map]. eexists _, _.
    split; [reflexivity|]. cbn [tasks].
    split; [apply list_lookup_insert_eq; by eapply lookup_lt_Some|].
    by cbn.
  - exists sd, t. rewrite Hs, Ht, Hp. cbn. rewrite Hd, <- Hu. done.
Qed.

(** Property X13. The [data] dictionary of a task accumulates what
    successive workers merge into it. When a worker holding [c1] has sent
    the request of a task whose dictionary was [d], and a worker holding
    [c2] then sends the request of the same task, the second request
    carries [d] updated with [c1] and then with [c2]: a key has the value
    [c2] gives it, else the value [c1] gives it, else its value in [d]. So
    the fields of [c1] that [c2] does not have travel with the second
    worker's request. *)
Theorem X13_data_accumulates_across_requests
    (w : World) (sm1 sm2 : StateMachine) (sd : StateDef) (i : nat)
    (t : Task) (d : Body) (c1 c2 : Credential) :
  states (config w) !! state sm1 = Some sd → tasks sd !! i = Some t →
  params t ≫= data = Some d →
  state sm2 = state sm1 →
  current_credential sm1 = Some c1 → current_credential sm2 = Some c2 →
  ∃ sd1 t1 body,
    states (config (fst (execute_task_send w sm1 i t))) !! state sm1
      = Some sd1 ∧
    tasks sd1 !! i = Some t1 ∧
    data (req_params
            (snd (execute_task_send (fst (execute_task_send w sm1 i t))
                                    sm2 i t1))) = Some body ∧
    ∀ k, body !! k =
         match c2 !! k with
         | Some v => Some v
         | None => match c1 !! k with
                   | Some v => Some v
                   | None => d !! k
                   end
         end.
Proof.
  intros Hs Ht Hd Hst H1 H2.
  destruct (execute_task_send_stored w sm1 i t sd d Hs Ht Hd)
    as (sd1 & t1 & Hs1 & Ht1 & Hd1 & _).
  rewrite H1 in Hd1. cbn [from_option id] in Hd1.
  rewrite <- Hst in Hs1.
  destruct (execute_task_send_stored _ sm2 i t1 sd1 _ Hs1 Ht1 Hd1)
    as (_ & _ & _ & _ & _ & Hreq).
  rewrite H2 in Hreq. cbn [from_option id] in Hreq.
  rewrite Hst in Hs1.
  exists sd1, t1, (update c2 (update c1 d)). split; [done|].
  split; [done|]. split; [done|].
  intros k. unfold update.
  destruct (c2 !! k) as [v|] eqn:Hk2.
  - by apply lookup_union_Some_l.
  - rewrite lookup_union_r by done.
    destruct (c1 !! k) as [v|] eqn:Hk1.
    + by apply lookup_union_Some_l.
    + by rewrite lookup_union_r.
Qed.

Lemma X13_witness :
  ∃ sd1 t1 body,
    states (config (fst (execute_task_send (initial_world main_config)
                           (holding (credential "user1" "pass1")) 0
                           login_task))) !! "LOGIN" = Some sd1 ∧
    tasks sd1 !! 0 = Some t1 ∧
    data (req_params
            (snd (execute_task_send
                    (fst (execute_task_send (initial_world main_config)
                            (holding (credential "user1" "pass1")) 0
                            login_task))
                    (holding {["token" := "t2"]}) 0 t1))) = Some body ∧
    body !! "token" = Some "t2" ∧ body !! "username" = Some "user1".
Proof.
  destruct (X13_data_accumulates_across_requests
              (initial_world main_config)
              (holding (credential "user1" "pass1"))
              (holding {["token" := "t2"]})
              login_state 0 login_task ∅
              (credential "user1" "pass1") {["token" := "t2"]})
    as (sd1 & t1 & body & Hs & Ht & Hb & Hk); try reflexivity.
  exists sd1, t1, body.
  split; [done|]. split; [done|]. split; [done|].
  split; rewrite Hk; reflexivity.
Defined.

(** ** The population of workers *)

Lemma step_worker_persist e sys j i sm :
  workers sys !! i = Some sm →
  ∃ sm', workers (step_worker e sys j) !! i = Some sm' ∧
         metrics sm `prefix_of` metrics sm'.
Proof.
  intros Hi. destruct (decide (i = j)) as [->|Hne].
  - unfold step_worker. rewrite Hi.
    destruct (step e (world sys) sm) as [[w1 sm1]|] eqn:Hstep.
    + exists sm1. cbn [workers]. split.
      * apply list_lookup_insert_eq. by eapply lookup_lt_Some.
      * by destruct (step_potential _ _ _ _ _ Hstep).
    + by exists sm.
  - exists sm. by rewrite step_worker_other.
Qed.

Lemma schedule_persist e sched :
  ∀ sys i sm,
    workers sys !! i = Some sm →
    ∃ sm', workers (schedule e sched sys) !! i = Some sm' ∧
           metrics sm `prefix_of` metrics sm'.
Proof.
  unfold schedule.
  induction sched as [|j sched IH]; intros sys i sm Hi; cbn [foldl].
  - by exists sm.
  - destruct (step_worker_persist e sys j i sm Hi) as (sm1 & H1 & Hp1).
    destruct (IH _ _ _ H1) as (sm2 & H2 & Hp2).
    exists sm2. split; [done|]. by etrans.
Qed.

Lemma round_persist e pool sched sys sys' h i sm :
  round e pool sched sys = Some (sys', h) →
  workers sys !! i = Some sm →
  ∃ sm', workers sys' !! i = Some sm' ∧ metrics sm `prefix_of` metrics sm'.
Proof.
  unfold round. destruct (existsb finished _); [|done].
  intros [= <- <-] Hi. cbn [workers].
  apply schedule_persist. cbn [workers]. by apply lookup_app_l_Some.
Qed.

Lemma main_loop_persist e pool scheds :
  ∀ sys sys' log i sm,
    main_loop e pool scheds sys = Some (sys', log) →
    workers sys !! i = Some sm →
    ∃ sm', workers sys' !! i = Some sm' ∧
           metrics sm `prefix_of` metrics sm'.
Proof.
  induction scheds as [|sched rest IH]; intros sys sys' log i sm;
    cbn [main_loop].
  - intros [= <- <-] Hi. by exists sm.
  - destruct (poll e (world sys)) as [r w1]. cbv beta iota zeta.
    destruct r; [|intros [= <- <-] Hi; by exists sm].
    destruct (round e pool sched {| world := w1; workers := workers sys |})
      as [[sys2 h]|] eqn:Hr; [|done].
    destruct (main_loop e pool rest sys2) as [[sys3 log']|] eqn:Hm; [|done].
    intros [= <- <-] Hi.
    destruct (round_persist _ _ _ _ _ _ i sm Hr Hi) as (sm1 & H1 & Hp1).
    destruct (IH _ _ _ _ _ Hm H1) as (sm2 & H2 & Hp2).
    exists sm2. split; [done|]. by etrans.
Qed.

(** Property X15. [main] only ever adds workers. Every round it
    gets through creates one worker per credential of the pool, so after
    the rounds of the log there are [length log * length pool] more workers
    than before; and every worker that existed is still there, at the same
    place, with all the records it had: none is cancelled, replaced or
    reset. *)
Theorem X15_population_only_grows
    (e : Env) (pool : list Credential) (scheds : list (list nat))
    (sys sys' : System) (log : list (nat * list StateMachine)) :
  main_loop e pool scheds sys = Some (sys', log) →
  length (workers sys') = length (workers sys) + length log * length pool ∧
  ∀ i sm, workers sys !! i = Some sm →
          ∃ sm', workers sys' !! i = Some sm' ∧
                 metrics sm `prefix_of` metrics sm'.
Proof.
  intros H. split.
  - by destruct (main_loop_spec _ _ _ _ _ _ H) as (_ & Hlen & _).
  - intros i sm Hi. by eapply main_loop_persist.
Qed.

Lemma X15_witness :
  ∃ sys' log,
    main_loop one_login_succeeds main_credentials two_rounds
              (fresh_system main_config) = Some (sys', log) ∧
    length (workers sys') = 0 + length log * 3 ∧
    ∀ i sm, workers (fresh_system main_config) !! i = Some sm →
            ∃ sm', workers sys' !! i = Some sm' ∧
                   metrics sm `prefix_of` metrics sm'.
Proof.
  destruct (main_loop one_login_succeeds main_credentials two_rounds
              (fresh_system main_config)) as [[sys' log]|] eqn:Hrun.
  - exists sys', log. split; [reflexivity|].
    exact (X15_population_only_grows one_login_succeeds main_credentials
             two_rounds (fresh_system main_config) sys' log Hrun).
  - run_is_some Hrun.
Defined.

(** ** Every record collected is well formed *)

Lemma same_task_sym t t' : same_task t t' → same_task t' t.
Proof.
  intros (H1 & H2 & H3 & H4 & H5).
  repeat split; try (symmetry; assumption); apply H5.
Qed.

Lemma Forall_concat_metrics (P : Metric.t → Prop) (l : list StateMachine) :
  Forall (fun sm => Forall P (metrics sm)) l →
  Forall P (concat (metrics <$> l)).
Proof.
  induction 1 as [|sm l Hsm _ IH]; [constructor|].
  cbn [fmap list_fmap concat]. apply Forall_app. by split.
Qed.

Lemma same_def_sym sd sd' : same_def sd sd' → same_def sd' sd.
Proof.
  intros [H1 H2]. split; [done|].
  induction H2; constructor; [by apply same_task_sym | done].
Qed.

Lemma same_graph_sym cfg cfg' : same_graph cfg cfg' → same_graph cfg' cfg.
Proof.
  intros [H1 H2]. split; [done|]. intros s.
  destruct (H2 s); constructor. by apply same_def_sym.
Qed.

Lemma same_def_lookup sd sd' i t :
  same_def sd sd' → tasks sd !! i = Some t →
  ∃ t', tasks sd' !! i = Some t' ∧ name t' = name t.
Proof.
  intros [_ H] Ht.
  destruct (Forall2_lookup_l _ _ _ _ _ H Ht) as (t' & Ht' & Hn & _).
  eauto.
Qed.

Lemma names_task_same_graph cfg cfg' m :
  same_graph cfg cfg' → names_task cfg m → names_task cfg' m.
Proof.
  intros Hg (sd & t & Hs & Ht & Hn).
  destruct (same_graph_lookup _ _ _ _ Hg Hs) as (sd' & Hs' & Hd).
  apply list_elem_of_lookup in Ht as [i Hi].
  destruct (same_def_lookup _ _ _ _ Hd Hi) as (t' & Hi' & Hn').
  exists sd', t'. split; [done|]. split; [|congruence].
  by eapply list_elem_of_lookup_2.
Qed.

Lemma valid_record_same_graph cfg cfg' m :
  same_graph cfg cfg' → valid_record cfg m → valid_record cfg' m.
Proof. intros Hg [H1 H2]. split; [done|]. by eapply names_task_same_graph. Qed.

Lemma sound_same_graph w w' sm :
  same_graph (config w) (config w') → sound w sm → sound w' sm.
Proof.
  intros Hg [Ha Hm]. split.
  - unfold awaits_task in *. destruct (pc sm) as [|i|i nm req|]; try done.
    destruct Ha as (sd & t & Hs & Ht & Hn).
    destruct (same_graph_lookup _ _ _ _ Hg Hs) as (sd' & Hs' & Hd).
    destruct (same_def_lookup _ _ _ _ Hd Ht) as (t' & Ht' & Hn').
    exists sd', t'. split; [done|]. split; [done|]. congruence.
  - eapply Forall_impl; [exact Hm|]. intros m.
    by apply valid_record_same_graph.
Qed.

Lemma execute_task_recv_one_of sm nm r :
  ∃ m, metrics (fst (execute_task_recv sm nm r)) = metrics sm ++ [m] ∧
       Metric.task m = nm ∧ Metric.state m = state sm ∧
       one_of_status_error m.
Proof.
  unfold execute_task_recv, one_of_status_error.
  destruct (outcome r); eexists; cbn; repeat split; eauto.
Qed.

Lemma step_sound e w sm w' sm' :
  sound w sm → step e w sm = Some (w', sm') → sound w' sm'.
Proof.
  intros Hsound Hstep.
  pose proof (step_same_graph _ _ _ _ _ Hstep) as Hg.
  destruct (sound_same_graph _ _ _ Hg Hsound) as [_ Hm'].
  destruct Hsound as [Ha Hm].
  revert Hstep. unfold step.
  destruct (pc sm) as [|i|i nm req|] eqn:Hpc.
  - destruct (states (config w) !! state sm); [|by intros [= <- <-]].
    destruct (poll e w) as [[] w1]; by intros [= <- <-].
  - destruct (states (config w) !! state sm) as [sd|] eqn:Hs; [|done].
    cbn [mbind option_bind].
    destruct (tasks sd !! i) as [t|] eqn:Ht; [|by intros [= <- <-]].
    pose proof (poll_config e w) as Hc.
    destruct (poll e w) as [[] w1]; [|by intros [= <- <-]].
    cbn [snd] in Hc.
    destruct (take_credential_frame sm) as (Hst & Hmet & _).
    destruct (execute_task_send_frame w1 (take_credential sm) i t sd)
      as (_ & _ & _ & _ & t' & Hn & _ & _ & Hs1).
    { by rewrite Hst, Hc. }
    { done. }
    cbn zeta in Hs1.
    destruct (execute_task_send w1 (take_credential sm) i t) as [w2 rq].
    cbn [fst] in Hs1. intros [= <- <-]. split.
    + unfold awaits_task. cbn [pc set_pc state].
      eexists _, t'. split; [exact Hs1|]. cbn [tasks].
      split; [|done]. apply list_lookup_insert_eq. by eapply lookup_lt_Some.
    + cbn [metrics set_pc]. by rewrite Hmet.
  - destruct (states (config w) !! state sm) as [sd|] eqn:Hs; [|done].
    cbn [mbind option_bind].
    destruct (execute_task_recv_one_of sm nm (session e (now w) req))
      as (m & Hmet & Hmt & Hms & Hone).
    destruct (execute_task_recv sm nm (session e (now w) req))
      as [sm1 st]. cbn [fst] in Hmet.
    intros [= <- <-]. split.
    + unfold awaits_task.
      by destruct (follow_state_pc (transitions sd) st i sm1)
        as [(tr & _ & _ & [-> | ->]) | (_ & _ & ->)].
    + rewrite follow_metrics, Hmet. apply Forall_app. split; [done|].
      constructor; [|done]. split; [done|].
      unfold awaits_task in Ha. rewrite Hpc in Ha.
      destruct Ha as (sd0 & t & Hs0 & Ht & Hn).
      exists sd0, t. rewrite Hms. cbn [config tick].
      split; [done|]. split; [by eapply list_elem_of_lookup_2|congruence].
  - done.
Qed.

Lemma step_worker_sound e sys j :
  Forall (sound (world sys)) (workers sys) →
  Forall (sound (world (step_worker e sys j)))
         (workers (step_worker e sys j)).
Proof.
  intros H. unfold step_worker.
  destruct (workers sys !! j) as [sm|] eqn:Hj; [|done].
  destruct (step e (world sys) sm) as [[w1 sm1]|] eqn:Hstep; [|done].
  cbn [world workers].
  pose proof (step_same_graph _ _ _ _ _ Hstep) as Hsame.
  apply Forall_insert.
  - eapply Forall_impl; [exact H|]. intros sm2.
    by apply sound_same_graph.
  - eapply step_sound; [|exact Hstep].
    by apply (Forall_lookup_1 _ _ _ _ H Hj).
Qed.

Lemma schedule_sound e sched sys :
  Forall (sound (world sys)) (workers sys) →
  Forall (sound (world (schedule e sched sys)))
         (workers (schedule e sched sys)).
Proof.
  unfold schedule. revert sys.
  induction sched as [|j sched IH]; intros sys H; cbn [foldl]; [done|].
  by apply IH, step_worker_sound.
Qed.

(** The invariant of a run of [main]: every worker is sound and every
    collected record is valid, for the graph as it is. *)
Lemma main_loop_sound e pool scheds :
  ∀ sys sys' log,
    main_loop e pool scheds sys = Some (sys', log) →
    Forall (sound (world sys)) (workers sys) →
    Forall (valid_record (config (world sys)))
           (MetricsCollector.metrics (collector (world sys))) →
    Forall (sound (world sys')) (workers sys') ∧
    Forall (valid_record (config (world sys')))
           (MetricsCollector.metrics (collector (world sys'))).
Proof.
  induction scheds as [|sched rest IH]; intros sys sys' log;
    cbn [main_loop].
  - by intros [= <- <-].
  - pose proof (poll_config e (world sys)) as Hc.
    pose proof (poll_collector_metrics e (world sys)) as Hpm.
    destruct (poll e (world sys)) as [r w1]. cbn [snd] in Hc, Hpm.
    cbv beta iota zeta.
    assert (same_graph (config (world sys)) (config w1)) as Hg0
      by (rewrite Hc; apply same_graph_refl).
    assert (Forall (sound (world sys)) (workers sys) →
            Forall (sound w1) (workers sys)) as Hw.
    { intros Hl. eapply Forall_impl; [exact Hl|]. intros sm.
      by apply sound_same_graph. }
    destruct r.
    2:{ intros [= <- <-] H1 H2. cbn [world workers].
        split; [by apply Hw|]. by rewrite Hc, Hpm. }
    destruct (round e pool sched {| world := w1; workers := workers sys |})
      as [[sys2 h]|] eqn:Hr; [|done].
    destruct (main_loop e pool rest sys2) as [[sys3 log']|] eqn:Hm; [|done].
    intros [= <- <-] H1 H2.
    eapply IH; [exact Hm| |].
    + revert Hr. unfold round. cbn [world workers].
      destruct (existsb finished _); [|done].
      intros [= <- _]. cbn [world workers].
      eapply Forall_impl.
      * apply schedule_sound. cbn [world workers].
        apply Forall_app. split; [by apply Hw|].
        apply Forall_forall. intros sm Hsm.
        apply elem_of_replicate in Hsm as [-> _]. by split.
      * intros sm. apply sound_same_graph. cbn [config set_collector].
        apply same_graph_refl.
    + revert Hr. unfold round. cbn [world workers].
      set (sys1 := {| world := w1;
                      workers := workers sys ++ spawn (config w1) pool |}).
      destruct (existsb finished _); [|done].
      intros [= <- _]. cbn [world workers config collector set_collector].
      assert (Forall (sound (world (schedule e sched sys1)))
                     (workers (schedule e sched sys1))) as Hs.
      { apply schedule_sound. cbn [world workers].
        apply Forall_app. split; [by apply Hw|].
        apply Forall_forall. intros sm Hsm.
        apply elem_of_replicate in Hsm as [-> _]. by split. }
      pose proof (schedule_same_graph e sched sys1) as Hg1.
      rewrite harvest_metrics, schedule_collector_metrics.
      change (collector (world sys1)) with (collector w1). rewrite Hpm.
      apply Forall_app. split.
      * eapply Forall_impl; [exact H2|]. intros m.
        apply valid_record_same_graph.
        eapply same_graph_trans; [exact Hg0|exact Hg1].
      * apply Forall_concat_metrics.
        eapply Forall_impl; [apply Forall_drop; exact Hs|].
        intros sm [_ Hm']. exact Hm'.
Qed.

Lemma round_same_graph e pool sched sys sys' h :
  round e pool sched sys = Some (sys', h) →
  same_graph (config (world sys)) (config (world sys')).
Proof.
  unfold round. destruct (existsb finished _); [|done].
  intros [= <- _]. cbn [world config set_collector].
  apply (schedule_same_graph e sched
           {| world := world sys;
              workers := workers sys ++ spawn (config (world sys)) pool |}).
Qed.

Lemma main_loop_same_graph e pool scheds :
  ∀ sys sys' log,
    main_loop e pool scheds sys = Some (sys', log) →
    same_graph (config (world sys)) (config (world sys')).
Proof.
  induction scheds as [|sched rest IH]; intros sys sys' log;
    cbn [main_loop].
  - intros [= <- <-]. apply same_graph_refl.
  - pose proof (poll_config e (world sys)) as Hc.
    destruct (poll e (world sys)) as [r w1]. cbn [snd] in Hc.
    cbv beta iota zeta.
    destruct r; [|intros [= <- <-]; cbn [world]; rewrite Hc;
                   apply same_graph_refl].
    destruct (round e pool sched {| world := w1; workers := workers sys |})
      as [[sys2 h]|] eqn:Hr; [|done].
    destruct (main_loop e pool rest sys2) as [[sys3 log']|] eqn:Hm; [|done].
    intros [= <- <-].
    apply round_same_graph in Hr. cbn [world] in Hr. rewrite Hc in Hr.
    eapply same_graph_trans; [exact Hr | by eapply IH].
Qed.

(** Property X1. Whatever moves the workers make, in whatever
    order, and however many rounds [main] goes through, the shared graph
    keeps its shape: the initial state, the set of states, the transitions
    of every state and, for every task, its name, method, URL, its keyword
    arguments other than [data] and whether it has a [data] dictionary.
    Only the contents of [data] dictionaries can differ. *)
Theorem X1_graph_shape_is_kept (e : Env) :
  (∀ sched sys,
     same_graph (config (world sys))
                (config (world (schedule e sched sys)))) ∧
  (∀ pool scheds sys sys' log,
     main_loop e pool scheds sys = Some (sys', log) →
     same_graph (config (world sys)) (config (world sys'))).
Proof.
  split.
  - intros sched. unfold schedule.
    induction sched as [|j sched IH]; intros sys; cbn [foldl].
    + apply same_graph_refl.
    + eapply same_graph_trans; [apply step_worker_same_graph | apply IH].
  - intros pool scheds sys sys' log H. by eapply main_loop_same_graph.
Qed.

Lemma X1_witness :
  same_graph main_config
    (config (world (schedule one_login_succeeds first_round
                      {| world := initial_world main_config;
                         workers := spawn main_config main_credentials |})))
  ∧
  ∃ sys' log,
    main_loop one_login_succeeds main_credentials two_rounds
              (fresh_system main_config) = Some (sys', log) ∧
    same_graph main_config (config (world sys')).
Proof.
  destruct (X1_graph_shape_is_kept one_login_succeeds) as [Hs Hm].
  split.
  - exact (Hs first_round
             {| world := initial_world main_config;
                workers := spawn main_config main_credentials |}).
  - destruct (main_loop one_login_succeeds main_credentials two_rounds
                (fresh_system main_config)) as [[sys' log]|] eqn:Hrun.
    + exists sys', log. split; [reflexivity|].
      exact (Hm main_credentials two_rounds (fresh_system main_config)
               sys' log Hrun).
    + run_is_some Hrun.
Defined.

(** Property X17. In a run of [main] that starts without workers
    and with an empty collector, every record, collected or still held by
    a worker, is well formed: it has a status and no error, or an error and
    no status; the state it names is a state of the configuration; and the
    task it names is a task declared for that state. *)
Theorem X17_every_record_is_well_formed
    (e : Env) (pool : list Credential) (scheds : list (list nat))
    (cfg : Config) (sys' : System) (log : list (nat * list StateMachine)) :
  main_loop e pool scheds (fresh_system cfg) = Some (sys', log) →
  Forall (valid_record cfg)
         (MetricsCollector.metrics (collector (world sys'))) ∧
  Forall (fun sm => Forall (valid_record cfg) (metrics sm)) (workers sys').
Proof.
  intros H.
  pose proof (main_loop_same_graph _ _ _ _ _ _ H) as Hg.
  apply same_graph_sym in Hg. cbn [fresh_system world config] in Hg.
  destruct (main_loop_sound _ _ _ _ _ _ H) as [Hw Hc]; [by constructor..|].
  split.
  - eapply Forall_impl; [exact Hc|]. intros m.
    by apply valid_record_same_graph.
  - eapply Forall_impl; [exact Hw|]. intros sm [_ Hm].
    eapply Forall_impl; [exact Hm|]. intros m.
    by apply valid_record_same_graph.
Qed.

Lemma X17_witness :
  ∃ sys' log,
    main_loop one_login_succeeds main_credentials two_rounds
              (fresh_system main_config) = Some (sys', log) ∧
    Forall (valid_record main_config)
           (MetricsCollector.metrics (collector (world sys'))) ∧
    Forall (fun sm => Forall (valid_record main_config) (metrics sm))
           (workers sys').
Proof.
  destruct (main_loop one_login_succeeds main_credentials two_rounds
              (fresh_system main_config)) as [[sys' log]|] eqn:Hrun.
  - exists sys', log. split; [reflexivity|].
    exact (X17_every_record_is_well_formed one_login_succeeds
             main_credentials two_rounds main_config sys' log Hrun).
  - run_is_some Hrun.
Defined.

(** ** The workers of [main]'s own configuration *)

(** One pass of the [while] loop over a state with a single task, when the
    flag is true and no SIGINT is delivered during the pass. *)
Lemma single_task_pass e w sm sd t :
  pc sm = AtWhile → states (config w) !! state sm = Some sd →
  tasks sd = [t] →
  MetricsCollector.running (collector w) = true →
  sigint e (now w) = false → sigint e (S (now w)) = false →
  ∃ w' sm1 req,
    steps e 3 w sm
      = Some (w', follow (transitions sd)
                    (reply_status (session e (S (S (now w))) req)) 0 sm1) ∧
    length (metrics sm1) = S (length (metrics sm)) ∧
    now w' = now w + 3 ∧ collector w' = collector w ∧
    (∀ s, s ≠ state sm → states (config w') !! s = states (config w) !! s).
Proof.
  intros Hpc Hs Ht Hrun Hsig0 Hsig1.
  assert (step e w sm = Some (tick w, set_pc (AtFor 0) sm)) as Hstep1.
  { rewrite (step_AtWhile_present _ _ _ _ Hpc Hs).
    rewrite (poll_quiet _ _ Hsig0). by rewrite Hrun. }
  assert (poll e (tick w) = (true, tick (tick w))) as Hpoll.
  { rewrite poll_quiet by done. by rewrite <- Hrun. }
  pose proof (step_AtFor_task e (tick w) (set_pc (AtFor 0) sm) sd 0 t
                eq_refl Hs) as Hstep2.
  rewrite Ht, Hpoll in Hstep2. specialize (Hstep2 eq_refl eq_refl).
  cbn zeta in Hstep2. cbn [fst snd] in Hstep2.
  destruct (take_credential_frame (set_pc (AtFor 0) sm))
    as (Hst & Hmet & _).
  set (sm1 := take_credential (set_pc (AtFor 0) sm)) in *.
  cbn [state metrics set_pc] in Hst, Hmet.
  destruct (execute_task_send_frame (tick (tick w)) sm1 0 t sd)
    as (Hnow & Hcol & _ & Hother & t' & _ & _ & _ & Hs1).
  { by rewrite Hst. }
  { by rewrite Ht. }
  cbn zeta in Hnow, Hcol, Hother, Hs1.
  destruct (execute_task_send (tick (tick w)) sm1 0 t) as [w1 req].
  cbn [fst snd] in *.
  set (sm2 := set_pc (Awaiting 0 (name t) req) sm1) in *.
  pose proof (step_Awaiting e w1 sm2 _ 0 (name t) req eq_refl Hs1)
    as Hstep3.
  cbn zeta in Hstep3. cbn [transitions] in Hstep3. rewrite Hnow in Hstep3.
  cbn [now tick] in Hstep3.
  destruct (execute_task_recv_frame sm2 (name t)
              (session e (S (S (now w))) req)) as (_ & _ & _ & _ & Hlen).
  cbn zeta in Hlen.
  eexists _, _, req. split.
  { cbn [steps]. rewrite Hstep1, Hstep2, Hstep3. reflexivity. }
  split. { rewrite Hlen. cbn [metrics sm2 set_pc]. by rewrite Hmet. }
  split. { cbn [now tick]. rewrite Hnow. cbn [now tick]. lia. }
  split. { cbn [collector tick]. by rewrite Hcol. }
  intros s Hne. cbn [config tick]. apply Hother. by rewrite Hst.
Qed.

Lemma follow_two_way a b st i sm :
  follow [ {| condition := status_is 200; next_state := a;
              terminate := None |};
           {| condition := status_is_not 200; next_state := b;
              terminate := Some true |} ] st i sm
  = if bool_decide (st = Some 200%Z)
    then set_pc AtWhile (set_state a sm)
    else set_pc Returned (set_state b sm).
Proof.
  unfold follow. cbn [first_transition condition].
  unfold status_is_not, status_is. by case_bool_decide.
Qed.

(** In a state without tasks, with the flag true and no SIGINT, the worker
    moves for ever and nothing of it changes but its control point. *)
Lemma empty_state_spins_frame e sd (n : nat) :
  (∀ k, sigint e k = false) → tasks sd = [] →
  ∀ w sm,
    pc sm = AtWhile ∨ pc sm = AtFor 0 →
    states (config w) !! state sm = Some sd →
    MetricsCollector.running (collector w) = true →
    ∃ w' sm',
      steps e n w sm = Some (w', sm') ∧ pc sm' ≠ Returned ∧
      state sm' = state sm ∧ metrics sm' = metrics sm.
Proof.
  intros Hsig Ht. induction n as [|n IH]; intros w sm Hpc Hs Hrun.
  - exists w, sm. split; [done|]. split; [|done].
    by destruct Hpc as [-> | ->].
  - cbn [steps]. destruct Hpc as [Hpc | Hpc].
    + rewrite (step_AtWhile_present _ _ _ _ Hpc Hs).
      rewrite (poll_quiet _ _ (Hsig _)), Hrun. cbn [fst snd].
      destruct (IH (tick w) (set_pc (AtFor 0) sm))
        as (w' & sm' & Hn & Hp & Hst & Hm); [by right|done|done|].
      by exists w', sm'.
    + rewrite (step_AtFor_exhausted _ _ _ _ _ Hpc Hs) by (by rewrite Ht).
      destruct (IH w (set_pc AtWhile sm))
        as (w' & sm' & Hn & Hp & Hst & Hm); [by left|done|done|].
      by exists w', sm'.
Qed.

(** Property X14. What a worker of [main]'s own configuration
    does, in every environment that delivers no SIGINT and for every
    credential pool. It sends the login; if the result is not 200 (another
    status, or a failure) [run] returns after three moves in state
    ["LOGIN_FAILED"] with one record. Otherwise it sends the fetch; if that
    result is not 200 [run] returns after six moves in state ["ERROR"] with
    two records. If both results are 200 the worker reaches ["COMPLETE"]
    with two records and [run] never returns. *)
Theorem X14_worker_of_main_config
    (e : Env) (creds : list Credential) :
  (∀ n, sigint e n = false) →
  let w0 := initial_world main_config in
  let sm0 := StateMachine_init main_config creds in
  ∃ req1 req2,
    let st1 := reply_status (session e 2 req1) in
    let st2 := reply_status (session e 5 req2) in
    (st1 ≠ Some 200%Z →
     ∃ w sm, run e 3 w0 sm0 = Some (w, sm) ∧
             state sm = "LOGIN_FAILED" ∧ length (metrics sm) = 1) ∧
    (st1 = Some 200%Z → st2 ≠ Some 200%Z →
     ∃ w sm, run e 6 w0 sm0 = Some (w, sm) ∧
             state sm = "ERROR" ∧ length (metrics sm) = 2) ∧
    (st1 = Some 200%Z → st2 = Some 200%Z →
     ∀ n, ∃ w sm, steps e (6 + n) w0 sm0 = Some (w, sm) ∧
                  pc sm ≠ Returned ∧ state sm = "COMPLETE" ∧
                  length (metrics sm) = 2).
Proof.
  intros Hsig w0 sm0.
  destruct (single_task_pass e w0 sm0 login_state login_task)
    as (w3 & sm1 & req1 & H3 & Hlen1 & Hnow3 & Hcol3 & Hoth3);
    [done..|].
  cbn [transitions login_state] in H3. rewrite follow_two_way in H3.
  cbn [now w0 initial_world] in H3, Hnow3. cbn [state sm0] in Hoth3.
  cbn [metrics sm0 StateMachine_init length] in Hlen1.
  set (smF := set_pc AtWhile (set_state "FETCH_DATA" sm1)).
  destruct (single_task_pass e w3 smF
              {| tasks := [fetch_task];
                 transitions :=
                   [ {| condition := status_is 200; next_state := "COMPLETE";
                        terminate := None |};
                     {| condition := status_is_not 200;
                        next_state := "ERROR"; terminate := Some true |} ] |}
              fetch_task)
    as (w6 & sm2 & req2 & H6 & Hlen2 & Hnow6 & Hcol6 & Hoth6);
    [done | by rewrite Hoth3 | done | by rewrite Hcol3 | done | done |].
  cbn [transitions] in H6. rewrite follow_two_way in H6.
  rewrite Hnow3 in H6. cbn [Nat.add] in H6.
  cbn [state smF set_pc set_state] in Hoth6.
  cbn [metrics smF set_pc set_state] in Hlen2. rewrite Hlen1 in Hlen2.
  subst smF. exists req1, req2. cbn zeta. split; [|split].
  - intros Hne. rewrite bool_decide_eq_false_2 in H3 by done.
    exists w3, (set_pc Returned (set_state "LOGIN_FAILED" sm1)).
    split; [by apply (steps_run e 3)|done].
  - intros H1 Hne.
    rewrite bool_decide_eq_true_2 in H3 by done.
    rewrite bool_decide_eq_false_2 in H6 by done.
    exists w6, (set_pc Returned (set_state "ERROR" sm2)).
    split; [|done].
    apply (steps_run e 6); [|done|lia].
    change 6 with (3 + 3). by rewrite steps_add, H3.
  - intros H1 H2 n.
    rewrite bool_decide_eq_true_2 in H3 by done.
    rewrite bool_decide_eq_true_2 in H6 by done.
    destruct (empty_state_spins_frame e sink n Hsig eq_refl w6
                (set_pc AtWhile (set_state "COMPLETE" sm2)))
      as (w & sm & Hn & Hp & Hst & Hm).
    { by left. }
    { cbn [state set_pc set_state]. by rewrite Hoth6, Hoth3. }
    { by rewrite Hcol6, Hcol3. }
    exists w, sm. split.
    { change (6 + n) with (3 + (3 + n)).
      by rewrite steps_add, H3, steps_add, H6. }
    split; [done|]. split; [done|]. by rewrite Hm.
Qed.

Lemma X14_witness :
  ∃ req1 req2,
    let st1 := reply_status (session (always ok_200) 2 req1) in
    let st2 := reply_status (session (always ok_200) 5 req2) in
    (st1 ≠ Some 200%Z →
     ∃ w sm, run (always ok_200) 3 (initial_world main_config)
                 (StateMachine_init main_config main_credentials)
             = Some (w, sm) ∧
             state sm = "LOGIN_FAILED" ∧ length (metrics sm) = 1) ∧
    (st1 = Some 200%Z → st2 ≠ Some 200%Z →
     ∃ w sm, run (always ok_200) 6 (initial_world main_config)
                 (StateMachine_init main_config main_credentials)
             = Some (w, sm) ∧
             state sm = "ERROR" ∧ length (metrics sm) = 2) ∧
    (st1 = Some 200%Z → st2 = Some 200%Z →
     ∀ n, ∃ w sm, steps (always ok_200) (6 + n) (initial_world main_config)
                        (StateMachine_init main_config main_credentials)
                  = Some (w, sm) ∧
                  pc sm ≠ Returned ∧ state sm = "COMPLETE" ∧
                  length (metrics sm) = 2).
Proof.
  apply (X14_worker_of_main_config (always ok_200) main_credentials).
  intros n. reflexivity.
Defined.

(** ** The states a worker visits *)

Lemma first_transition_elem_of trs st tr :
  first_transition trs st = Some tr → tr ∈ trs ∧ condition tr st = true.
Proof.
  intros H. destruct (first_transition_Some _ _ _ H)
    as (before & after & -> & Hc & _).
  split; [|done]. apply elem_of_app. right. by left.
Qed.

Lemma step_state e w sm w' sm' :
  step e w sm = Some (w', sm') →
  state sm' = state sm ∨
  ∃ i nm req sd tr,
    pc sm = Awaiting i nm req ∧
    states (config w) !! state sm = Some sd ∧
    first_transition (transitions sd)
      (reply_status (session e (now w) req)) = Some tr ∧
    state sm' = next_state tr.
Proof.
  unfold step. destruct (pc sm) as [|i|i nm req|] eqn:Hpc.
  - destruct (states (config w) !! state sm); [|intros [= <- <-]; by left].
    destruct (poll e w) as [r w1]. intros [= <- <-]. by left.
  - destruct (states (config w) !! state sm) as [sd|]; [|done].
    cbn [mbind option_bind].
    destruct (tasks sd !! i) as [t|]; [|intros [= <- <-]; by left].
    destruct (poll e w) as [[] w1]; [|intros [= <- <-]; by left].
    destruct (take_credential_frame sm) as (Hst & _ & _).
    destruct (execute_task_send w1 (take_credential sm) i t) as [w2 rq].
    intros [= <- <-]. by left.
  - destruct (states (config w) !! state sm) as [sd|] eqn:Hs; [|done].
    cbn [mbind option_bind].
    pose proof (execute_task_recv_status sm nm (session e (now w) req))
      as Hrs.
    destruct (execute_task_recv_frame sm nm (session e (now w) req))
      as (Hst & _).
    destruct (execute_task_recv sm nm (session e (now w) req))
      as [sm1 st]. cbn [fst snd] in Hrs, Hst. subst st.
    intros [= <- <-].
    destruct (follow_state_pc (transitions sd)
                (reply_status (session e (now w) req)) i sm1)
      as [(tr & Hft & Hfs & _) | (_ & Hfs & _)].
    + right. by exists i, nm, req, sd, tr.
    + left. congruence.
  - done.
Qed.

Lemma declared_target_same_graph cfg cfg' s :
  same_graph cfg cfg' → declared_target cfg' s → declared_target cfg s.
Proof.
  intros Hg (s0 & sd' & tr & Hs & Htr & Hn).
  apply same_graph_sym in Hg.
  destruct (same_graph_lookup _ _ _ _ Hg Hs) as (sd & Hs0 & [Heq _]).
  exists s0, sd, tr. rewrite Heq. done.
Qed.

(** Property X8. A worker changes state only by following a
    transition: a move that changes the state is the move that takes a
    reply, and the new state is the target of the first transition of the
    current state that accepts the result. So after any number of moves
    the worker is in the state it started in or in the target of a
    transition declared in the graph. *)
Theorem X8_state_changes_follow_transitions (e : Env) :
  (∀ w sm w' sm',
     step e w sm = Some (w', sm') →
     state sm' = state sm ∨
     ∃ i nm req sd tr,
       pc sm = Awaiting i nm req ∧
       states (config w) !! state sm = Some sd ∧
       first_transition (transitions sd)
         (reply_status (session e (now w) req)) = Some tr ∧
       state sm' = next_state tr) ∧
  (∀ n w sm w' sm',
     steps e n w sm = Some (w', sm') →
     state sm' = state sm ∨ declared_target (config w) (state sm')).
Proof.
  split; [intros w sm w' sm'; apply step_state|].
  induction n as [|n IH]; intros w sm w' sm'; cbn [steps].
  - intros [= <- <-]. by left.
  - destruct (step e w sm) as [[w1 sm1]|] eqn:Hstep; [|done].
    intros Hn.
    pose proof (step_same_graph _ _ _ _ _ Hstep) as Hg.
    assert (state sm1 = state sm ∨
            declared_target (config w) (state sm1)) as H1.
    { destruct (step_state _ _ _ _ _ Hstep)
        as [Heq | (i & nm & req & sd & tr & _ & Hs & Hft & Hst)];
        [by left|right].
      exists (state sm), sd, tr.
      by destruct (first_transition_elem_of _ _ _ Hft). }
    destruct (IH _ _ _ _ Hn) as [Heq | Hd].
    + by rewrite Heq.
    + right. by eapply declared_target_same_graph.
Qed.

Lemma X8_witness :
  (∃ w' sm',
     step (always ok_200) (initial_world main_config)
          (awaiting "LOGIN" "login" (login_request ∅)) = Some (w', sm') ∧
     (state sm' = "LOGIN" ∨
      ∃ i nm req sd tr,
        pc (awaiting "LOGIN" "login" (login_request ∅))
          = Awaiting i nm req ∧
        states main_config !! "LOGIN" = Some sd ∧
        first_transition (transitions sd)
          (reply_status (session (always ok_200) 0 req)) = Some tr ∧
        state sm' = next_state tr)) ∧
  (∃ w' sm',
     steps (always ok_200) 6 (initial_world main_config)
           (StateMachine_init main_config main_credentials)
       = Some (w', sm') ∧
     (state sm' = "LOGIN" ∨ declared_target main_config (state sm'))).
Proof.
  destruct (X8_state_changes_follow_transitions (always ok_200))
    as [Hstep Hsteps].
  split.
  - destruct (step (always ok_200) (initial_world main_config)
                (awaiting "LOGIN" "login" (login_request ∅)))
      as [[w' sm']|] eqn:Hrun.
    + exists w', sm'. split; [reflexivity|].
      exact (Hstep (initial_world main_config)
               (awaiting "LOGIN" "login" (login_request ∅)) w' sm' Hrun).
    + run_is_some Hrun.
  - destruct (steps (always ok_200) 6 (initial_world main_config)
                (StateMachine_init main_config main_credentials))
      as [[w' sm']|] eqn:Hrun.
    + exists w', sm'. split; [reflexivity|].
      exact (Hsteps 6 (initial_world main_config)
               (StateMachine_init main_config main_credentials)
               w' sm' Hrun).
    + run_is_some Hrun.
Defined.

(** ** The credentials used with [main]'s own configuration *)

Lemma main_config_login cfg :
  same_graph main_config cfg →
  ∃ sd t, states cfg !! "LOGIN" = Some sd ∧
          transitions sd = transitions login_state ∧ tasks sd = [t].
Proof.
  intros Hg.
  destruct (same_graph_lookup _ _ "LOGIN" login_state Hg eq_refl)
    as (sd & Hs & Htr & Hts).
  cbn [tasks login_state] in Hts.
  inversion Hts as [|t0 t l0 l Ht Hl Heq1 Heq2]; subst.
  inversion Hl; subst. exists sd, t. by rewrite <- Heq2.
Qed.

Lemma main_config_past_login cfg s sd st :
  same_graph main_config cfg → past_login s →
  states cfg !! s = Some sd →
  match first_transition (transitions sd) st with
  | Some tr => past_login (next_state tr)
  | None => True
  end.
Proof.
  intros Hg Hp Hs. apply same_graph_sym in Hg.
  destruct (same_graph_lookup _ _ _ _ Hg Hs) as (sd0 & Hs0 & Htr & _).
  rewrite <- Htr. unfold past_login in Hp.
  assert (sd0 = fetch_state ∨ sd0 = sink) as [-> | ->].
  { destruct Hp as [-> | [-> | [-> | ->]]];
      [left | right | right | right];
      apply (inj Some); rewrite <- Hs0; reflexivity. }
  - cbn [transitions fetch_state first_transition condition].
    unfold past_login.
    destruct (status_is 200 st); cbn [next_state]; [auto|].
    destruct (status_is_not 200 st); cbn [next_state]; auto.
  - done.
Qed.

Lemma step_one_credential pool e w sm w' sm' :
  one_credential pool w sm → step e w sm = Some (w', sm') →
  one_credential pool w' sm'.
Proof.
  intros [Hg Hphase] Hstep.
  pose proof (step_same_graph _ _ _ _ _ Hstep) as Hg1.
  split; [by eapply same_graph_trans|].
  destruct (main_config_login _ Hg) as (sdL & tL & HsL & HtrL & HtsL).
  destruct Hphase as [(Hst & Hpc & Hq & Hcc) | (Hq & Hcc & Hphase)].
  - destruct Hpc as [Hpc | [Hpc | Hpc]].
    + rewrite <- Hst in HsL.
      rewrite (step_AtWhile_present _ _ _ _ Hpc HsL) in Hstep.
      injection Hstep as <- <-. left. cbn [state set_pc pc].
      split; [done|]. split; [|done].
      match goal with |- context [if ?b then _ else _] => destruct b end;
        auto.
    + rewrite <- Hst in HsL.
      assert (tasks sdL !! 0 = Some tL) as Ht by (by rewrite HtsL).
      destruct (fst (poll e w)) eqn:Hr.
      * rewrite (step_AtFor_task _ _ _ _ _ _ Hpc HsL Ht Hr) in Hstep.
        cbn zeta in Hstep. injection Hstep as <- <-. right.
        cbn [credentials current_credential state pc set_pc].
        unfold take_credential. rewrite bool_decide_eq_true_2 by done.
        rewrite Hq. destruct pool as [|c rest];
          cbn [credentials current_credential state tail head];
          (split; [done|]); (split; [done|]); left;
          (split; [done|]); eauto.
      * rewrite (step_AtFor_stopped _ _ _ _ _ _ Hpc HsL Ht Hr) in Hstep.
        injection Hstep as <- <-. left. cbn [state set_pc pc]. auto.
    + by rewrite (step_Returned _ _ _ Hpc) in Hstep.
  - right.
    destruct (step_credentials _ _ _ _ _ Hstep)
      as [[Hq1 Hc1] | (HstL & (i & Hpc) & _)].
    2:{ destruct Hphase as [(_ & nm & req & Hpc') | Hp].
        - congruence.
        - unfold past_login in Hp. rewrite HstL in Hp.
          by destruct Hp as [? | [? | [? | ?]]]. }
    rewrite Hq1, Hc1. split; [done|]. split; [done|]. right.
    destruct Hphase as [(Hst & nm & req & Hpc) | Hp].
    + rewrite <- Hst in HsL.
      rewrite (step_Awaiting _ _ _ _ _ _ _ Hpc HsL) in Hstep.
      cbn zeta in Hstep. injection Hstep as <- <-.
      rewrite HtrL. cbn [transitions login_state].
      rewrite follow_two_way. unfold past_login.
      case_bool_decide; cbn [state set_pc set_state]; auto.
    + destruct (step_state _ _ _ _ _ Hstep)
        as [Heq | (i & nm & req & sd & tr & _ & Hs & Hft & Hns)];
        [by rewrite Heq|].
      pose proof (main_config_past_login _ _ _
                    (reply_status (session e (now w) req)) Hg Hp Hs) as H.
      rewrite Hft in H. by rewrite Hns.
Qed.

Lemma one_credential_same_graph pool w w' sm :
  same_graph (config w) (config w') →
  one_credential pool w sm → one_credential pool w' sm.
Proof.
  intros Hg [Hg0 H]. split; [by eapply same_graph_trans|done].
Qed.

Lemma step_worker_one_credential pool e sys j :
  Forall (one_credential pool (world sys)) (workers sys) →
  Forall (one_credential pool (world (step_worker e sys j)))
         (workers (step_worker e sys j)).
Proof.
  intros H. unfold step_worker.
  destruct (workers sys !! j) as [sm|] eqn:Hj; [|done].
  destruct (step e (world sys) sm) as [[w1 sm1]|] eqn:Hstep; [|done].
  cbn [world workers].
  pose proof (step_same_graph _ _ _ _ _ Hstep) as Hsame.
  apply Forall_insert.
  - eapply Forall_impl; [exact H|]. intros sm2.
    by apply one_credential_same_graph.
  - eapply step_one_credential; [|exact Hstep].
    by apply (Forall_lookup_1 _ _ _ _ H Hj).
Qed.

Lemma schedule_one_credential pool e sched sys :
  Forall (one_credential pool (world sys)) (workers sys) →
  Forall (one_credential pool (world (schedule e sched sys)))
         (workers (schedule e sched sys)).
Proof.
  unfold schedule. revert sys.
  induction sched as [|j sched IH]; intros sys H; cbn [foldl]; [done|].
  by apply IH, step_worker_one_credential.
Qed.

Lemma main_loop_one_credential e pool scheds :
  ∀ sys sys' log,
    main_loop e pool scheds sys = Some (sys', log) →
    Forall (one_credential pool (world sys)) (workers sys) →
    same_graph main_config (config (world sys)) →
    Forall (one_credential pool (world sys')) (workers sys').
Proof.
  induction scheds as [|sched rest IH]; intros sys sys' log;
    cbn [main_loop].
  - by intros [= <- <-].
  - pose proof (poll_config e (world sys)) as Hc.
    destruct (poll e (world sys)) as [r w1]. cbn [snd] in Hc.
    cbv beta iota zeta.
    assert (Forall (one_credential pool (world sys)) (workers sys) →
            Forall (one_credential pool w1) (workers sys)) as Hw.
    { intros Hl. eapply Forall_impl; [exact Hl|]. intros sm.
      apply one_credential_same_graph. rewrite Hc. apply same_graph_refl. }
    destruct r; [|intros [= <- <-] H _; by apply Hw].
    destruct (round e pool sched {| world := w1; workers := workers sys |})
      as [[sys2 h]|] eqn:Hr; [|done].
    destruct (main_loop e pool rest sys2) as [[sys3 log']|] eqn:Hm; [|done].
    intros [= <- <-] H Hg.
    pose proof (round_same_graph _ _ _ _ _ _ Hr) as Hg2.
    cbn [world] in Hg2. rewrite Hc in Hg2.
    eapply IH; [exact Hm| |by eapply same_graph_trans].
    revert Hr. unfold round. cbn [world workers].
    destruct (existsb finished _); [|done].
    intros [= <- _]. cbn [world workers].
    eapply Forall_impl.
    + apply (schedule_one_credential pool). cbn [world workers].
      apply Forall_app. split; [by apply Hw|].
      apply Forall_forall. intros sm Hsm.
      apply elem_of_replicate in Hsm as [-> _].
      split; [by rewrite Hc|]. left.
      unfold StateMachine_init.
      cbn [state pc credentials current_credential].
      destruct Hg as [Hi _]. rewrite Hc, Hi. cbn. auto.
    + intros sm. apply one_credential_same_graph.
      cbn [config set_collector]. apply same_graph_refl.
Qed.

(** Property X18. With [main]'s own configuration only the first credential
    of the pool is ever used. Every worker is created with a copy of the
    whole pool and takes a credential once, when it sends its login; so in
    any run of [main], at any point, every worker either still has the
    whole pool and holds nothing, or has the pool less its first element
    and holds that first element. The other credentials are never taken. *)
Theorem X18_main_uses_only_the_first_credential
    (e : Env) (pool : list Credential) (scheds : list (list nat))
    (sys' : System) (log : list (nat * list StateMachine)) :
  main_loop e pool scheds (fresh_system main_config) = Some (sys', log) →
  Forall (fun sm =>
            (credentials sm = pool ∧ current_credential sm = None) ∨
            (credentials sm = tail pool ∧
             current_credential sm = head pool))
         (workers sys').
Proof.
  intros H.
  apply main_loop_one_credential in H;
    [|by constructor|apply same_graph_refl].
  eapply Forall_impl; [exact H|]. intros sm [_ Hc]. cbv beta.
  destruct Hc as [(_ & _ & Hq & Hcc) | (Hq & Hcc & _)]; auto.
Qed.

Lemma X18_witness :
  ∃ sys' log,
    main_loop one_login_succeeds main_credentials two_rounds
              (fresh_system main_config) = Some (sys', log) ∧
    Forall (fun sm =>
              (credentials sm = main_credentials ∧
               current_credential sm = None) ∨
              (credentials sm = tail main_credentials ∧
               current_credential sm = head main_credentials))
           (workers sys').
Proof.
  destruct (main_loop one_login_succeeds main_credentials two_rounds
              (fresh_system main_config)) as [[sys' log]|] eqn:Hrun.
  - exists sys', log. split; [reflexivity|].
    exact (X18_main_uses_only_the_first_credential one_login_succeeds
             main_credentials two_rounds sys' log Hrun).
  - run_is_some Hrun.
Defined.
